(** * Test-oracle generators of the integration suite

    A shallow embedding of [integration/util.go]: the variant selector
    [generateAlternatingSeries], the single-series histogram generators built
    on [generateHistogramSeriesWrapper], and the bulk generator
    [GenerateNHistogramSeries], together with the properties the integration
    tests rely on; further the TLS flag builders and the file helpers of that
    file, and the query statistics middleware of the query frontend.

    Go's [int] and [int64] are embedded as [Z]; no arithmetic of the
    embedded functions can leave the 64-bit range (loop counters are bounded
    by their limit, seeds by 1000), so no wrap-around is written out.
    Slices are lists, [model.Metric] (a Go map from label name to label value)
    is a [gmap string string], [float64] is the binary64 type of Rocq. *)

From Stdlib Require Import ZArith Floats Uint63 Ascii.
From stdpp Require Import gmap strings pretty list fin_maps.

Local Open Scope string_scope.
Local Open Scope list_scope.
Local Open Scope Z_scope.

(** ** Numeric conversions *)

(** [float64(i)] for a Go [int]: the nearest binary64 number. *)
Definition float64 (i : Z) : float :=
  if decide (0 <= i) then PrimFloat.of_uint63 (Uint63.of_Z i)
  else if decide (i = -9223372036854775808) then (-0x1p63)%float
  else PrimFloat.opp (PrimFloat.of_uint63 (Uint63.of_Z (- i))).

(** ** The variant selector *)

(** The five functions a [generateSeriesFunc] value of the selector can refer
    to. Go function values cannot be compared with each other (only with
    [nil]), so a reference is embedded as the name of the function referred
    to; [None] is the [nil] function value. *)
Inductive SeriesFuncRef : Set :=
| generateFloatSeriesRef
| generateHistogramSeriesRef
| GenerateFloatHistogramSeriesRef
| GenerateGaugeHistogramSeriesRef
| GenerateGaugeFloatHistogramSeriesRef.

#[global] Instance SeriesFuncRef_eq_dec : EqDecision SeriesFuncRef.
Proof. solve_decision. Defined.

(** [i % 5] of Go is the truncated remainder, [Z.rem]. *)
Definition generateAlternatingSeries (i : Z) : option SeriesFuncRef :=
  match Z.rem i 5 with
  | 0 => Some generateFloatSeriesRef
  | 1 => Some generateHistogramSeriesRef
  | 2 => Some GenerateFloatHistogramSeriesRef
  | 3 => Some GenerateGaugeHistogramSeriesRef
  | 4 => Some GenerateGaugeFloatHistogramSeriesRef
  | _ => None
  end.

(** The cycle of the selector, in order. *)
Definition seriesCycle : list SeriesFuncRef :=
  [ generateFloatSeriesRef; generateHistogramSeriesRef;
    GenerateFloatHistogramSeriesRef; GenerateGaugeHistogramSeriesRef;
    GenerateGaugeFloatHistogramSeriesRef ].


(** ** Histograms *)

(** Modelled from the spec: the statistical value of a histogram. Its types
    are declared in the Prometheus libraries, not in [integration/util.go];
    the spec gives it a total count, a total sum and a set of bucket
    boundaries and counts. *)
Module HistogramBucket.
Record t : Set := mk { Lower : float; Upper : float; Count : float }.
End HistogramBucket.

Module StatValue.
Record t : Set := mk { Count : float; Sum : float; Buckets : list HistogramBucket.t }.
End StatValue.

(** Modelled from the spec: the reset-semantics marker (counter or gauge) and
    the representation of the bucket counts (integer or floating point) that
    make up the kind of a histogram. *)
Inductive ResetSemantics : Set := CounterHistogram | GaugeHistogram.
Inductive CountRepr : Set := IntegerCounts | FloatCounts.

(** Modelled from the spec: [histogram.Histogram] and
    [histogram.FloatHistogram], the integer and the floating-point histogram
    of the Prometheus library, as far as the spec describes them: a reset
    marker and a statistical value. *)
Module histogram.

Module Histogram.
Record t : Set := mk { Reset : ResetSemantics; Stat : StatValue.t }.
End Histogram.

Module FloatHistogram.
Record t : Set := mk { Reset : ResetSemantics; Stat : StatValue.t }.
End FloatHistogram.

End histogram.

(** ** Wire format: the remote-write schema ([prompb]) *)

Module prompb.

Module Label.
Record t : Set := mk { Name : string; Value : string }.
End Label.

Module Sample.
Record t : Set := mk { Value : float; Timestamp : Z }.
End Sample.

Module Exemplar.
Record t : Set := mk { Labels : list Label.t; Value : float; Timestamp : Z }.
End Exemplar.

(** Modelled from the spec: [prompb.Histogram], the wire-format histogram; the
    protobuf encoding of its buckets is not described, only the statistical
    value it denotes, its kind and its timestamp. *)
Module Histogram.
Record t : Set := mk {
  Reset : ResetSemantics;
  Counts : CountRepr;
  Stat : StatValue.t;
  Timestamp : Z
}.
End Histogram.

Module TimeSeries.
Record t : Set := mk {
  Labels : list Label.t;
  Samples : list Sample.t;
  Exemplars : list Exemplar.t;
  Histograms : list Histogram.t
}.
End TimeSeries.

End prompb.

(** [labels.MetricName] *)
Definition MetricName : string := "__name__".

(** ** Query results: Prometheus' [model] package *)

(** [model.Metric] is a Go map from label names to label values. *)
Abbreviation Metric := (gmap string string).

Module model.

(** [model.SampleHistogram], the read-path histogram, carries a statistical
    value and no kind. *)
Module SampleHistogram.
Record t : Set := mk { Stat : StatValue.t }.
End SampleHistogram.

(** [model.Sample]; [Histogram] is a pointer in Go, [None] is [nil]. *)
Module Sample.
Record t : Type := mk {
  Metric : gmap string string;
  Value : float;
  Timestamp : Z;
  Histogram : option SampleHistogram.t
}.
End Sample.

Module SampleHistogramPair.
Record t : Set := mk { Timestamp : Z; Histogram : option SampleHistogram.t }.
End SampleHistogramPair.

(** [model.SampleStream] *)
Module SampleStream.
Record t : Type := mk {
  Metric : gmap string string;
  Values : list (Z * float);
  Histograms : list SampleHistogramPair.t
}.
End SampleStream.

End model.

Abbreviation Vector := (list model.Sample.t).
Abbreviation Matrix := (list model.SampleStream.t).

(** [metric[model.LabelName(lbl.Name)] = model.LabelValue(lbl.Value)] *)
Definition setLabel (metric : Metric) (lbl : prompb.Label.t) : Metric :=
  <[prompb.Label.Name lbl := prompb.Label.Value lbl]> metric.

(** [for _, lbl := range lbls { metric[lbl.Name] = lbl.Value }] *)
Definition setLabels (metric : Metric) (lbls : list prompb.Label.t) : Metric :=
  foldl setLabel metric lbls.

(** A wire label list and a metric have the same label set: the same names
    with the same values. *)
Definition sameLabelSet (lbls : list prompb.Label.t) (metric : Metric) : Prop :=
  forall n v, metric !! n = Some v <-> prompb.Label.mk n v ∈ lbls.

(** No label name of the list is given two different values. *)
Definition consistentLabels (lbls : list prompb.Label.t) : Prop :=
  forall l1 l2, l1 ∈ lbls -> l2 ∈ lbls ->
    prompb.Label.Name l1 = prompb.Label.Name l2 ->
    prompb.Label.Value l1 = prompb.Label.Value l2.

(** The exemplar label of both generators. *)
Definition traceLabels : list prompb.Label.t := [prompb.Label.mk "trace_id" "1234"].

(** ** Counted loops *)

(** [for i := start; i < start + count; i++ { body }] over a loop state [St];
    a body that panics gives [None]. *)
Fixpoint for_range {St : Type} (i : Z) (count : nat)
    (body : Z -> St -> option St) (s : St) : option St :=
  match count with
  | O => Some s
  | S count' => s' ← body i s; for_range (i + 1) count' body s'
  end.

(** ** Reading label lists, exemplars and floats *)

(** The value of the last label of the list that has the name [n]. *)
Definition lastValue (n : string) (lbls : list prompb.Label.t) : option string :=
  last (prompb.Label.Value <$> filter (fun l => prompb.Label.Name l = n) lbls).

(** The number of exemplars that a list of series carries. *)
Definition exemplarCount (series : list prompb.TimeSeries.t) : nat :=
  sum_list (length ∘ prompb.TimeSeries.Exemplars <$> series).

(** The integer that a binary64 number is equal to, when it is equal to one:
    a finite number is [(-1)^s * m * 2^e]. *)
Definition floatIntValue (f : float) : option Z :=
  match Prim2SF f with
  | S754_zero _ => Some 0
  | S754_finite s m e =>
      let sign := if s then -1 else 1 in
      if decide (0 <= e) then Some (sign * (Z.pos m * 2 ^ e))
      else if decide (Z.pos m `mod` 2 ^ (- e) = 0)
           then Some (sign * (Z.pos m `div` 2 ^ (- e)))
           else None
  | _ => None
  end.

(** The label lists that [count] rounds of the two callbacks of the bulk
    generator give, a round being one call of [name] and then one call of
    [additionalLabels] (when it is not [nil]), and the state captured by the
    callbacks after these rounds. *)
Fixpoint callbackLabels {Env : Type} (name : Env -> string * Env)
    (additionalLabels : option (Env -> list prompb.Label.t * Env))
    (count : nat) (env : Env) : list (list prompb.Label.t) * Env :=
  match count with
  | O => ([], env)
  | S count' =>
      let '(n, env) := name env in
      let '(more, env) :=
        match additionalLabels with
        | Some additionalLabels => additionalLabels env
        | None => ([], env)
        end in
      let '(rest, env) := callbackLabels name additionalLabels count' env in
      ((prompb.Label.mk MetricName n :: more) :: rest, env)
  end.

(** ** A concrete environment, used to run the generators on examples *)

(** Timestamps as epoch milliseconds, a linear congruential random source
    and a scheme that puts the seed in every component. *)
Definition exampleIntn (n : Z) (r : Z) : Z * Z :=
  (r `mod` n, (r * 1103515245 + 12345) `mod` 2147483648).

Definition exampleScheme (v : Z) : StatValue.t :=
  StatValue.mk (float64 v) (float64 (v + 1))
    [HistogramBucket.mk (float64 (- v)) (float64 v) (float64 v)].

(** A name callback that numbers the series, with the next number as its
    captured state, and a label callback that gives the same two labels each
    time. *)
Definition exampleName (n : nat) : string * nat :=
  ("series_" +:+ pretty n, S n).

Definition exampleLabels (n : nat) : list prompb.Label.t * nat :=
  ([prompb.Label.mk "job" "test"; prompb.Label.mk "zone" "a"], n).

(** A label callback that gives one label name twice. *)
Definition exampleDuplicateLabels (n : nat) : list prompb.Label.t * nat :=
  ([prompb.Label.mk "a" "1"; prompb.Label.mk "a" "2"], n).

(** ** Paths and TLS flags *)

(** [filepath.Join] and [filepath.Dir] of the Go library. *)
Class Filepath := {
  filepath_Join : list string -> string;
  filepath_Dir : string -> string
}.

(** The names that the TLS flag builders use and [integration/util.go] does
    not declare: the shared directory of the containers
    ([e2e.ContainerSharedDir]) and the certificate files of the package. *)
Class TLSFiles := {
  ContainerSharedDir : string;
  caCertFile : string;
  clientCertFile : string;
  clientKeyFile : string;
  serverCertFile : string;
  serverKeyFile : string
}.

(** A flag set is a Go [map[string]string]; the entries of a map literal
    are set in the order of the source. *)
Definition getServerTLSFlags `{Filepath, TLSFiles} : gmap string string :=
  <["-server.grpc-tls-ca-path" := filepath_Join [ContainerSharedDir; caCertFile]]>
    (<["-server.grpc-tls-client-auth" := "RequireAndVerifyClientCert"]>
      (<["-server.grpc-tls-key-path" := filepath_Join [ContainerSharedDir; serverKeyFile]]>
        (<["-server.grpc-tls-cert-path"
           := filepath_Join [ContainerSharedDir; serverCertFile]]> ∅))).

Definition getServerHTTPTLSFlags `{Filepath, TLSFiles} : gmap string string :=
  <["-server.http-tls-ca-path" := filepath_Join [ContainerSharedDir; caCertFile]]>
    (<["-server.http-tls-client-auth" := "RequireAndVerifyClientCert"]>
      (<["-server.http-tls-key-path" := filepath_Join [ContainerSharedDir; serverKeyFile]]>
        (<["-server.http-tls-cert-path"
           := filepath_Join [ContainerSharedDir; serverCertFile]]> ∅))).

Definition getTLSFlagsWithPrefix `{Filepath, TLSFiles}
    (prefix servername : string) (http : bool) : gmap string string :=
  let flags : gmap string string :=
    <[("-" +:+ prefix) +:+ ".tls-server-name" := servername]>
      (<[("-" +:+ prefix) +:+ ".tls-ca-path"
         := filepath_Join [ContainerSharedDir; caCertFile]]>
        (<[("-" +:+ prefix) +:+ ".tls-key-path"
           := filepath_Join [ContainerSharedDir; clientKeyFile]]>
          (<[("-" +:+ prefix) +:+ ".tls-cert-path"
             := filepath_Join [ContainerSharedDir; clientCertFile]]> ∅))) in
  let flags :=
    if negb http then <[("-" +:+ prefix) +:+ ".tls-enabled" := "true"]> flags
    else flags in
  flags.

Definition getClientTLSFlagsWithPrefix `{Filepath, TLSFiles} (prefix : string)
    : gmap string string :=
  getTLSFlagsWithPrefix prefix "ingester.client" false.

(** The endings of the flag names of [getTLSFlagsWithPrefix], and the flag
    names of the two server flag sets. *)
Definition tlsFlagSuffixes : list string :=
  [".tls-cert-path"; ".tls-key-path"; ".tls-ca-path"; ".tls-server-name";
   ".tls-enabled"].

Definition serverGRPCFlagNames : list string :=
  ["-server.grpc-tls-cert-path"; "-server.grpc-tls-key-path";
   "-server.grpc-tls-client-auth"; "-server.grpc-tls-ca-path"].

Definition serverHTTPFlagNames : list string :=
  ["-server.http-tls-cert-path"; "-server.http-tls-key-path";
   "-server.http-tls-client-auth"; "-server.http-tls-ca-path"].

(** [hasSuffix s k]: the string [k] ends with [s]. *)
Fixpoint hasSuffix (s k : string) : bool :=
  if decide (s = k) then true
  else match k with
       | EmptyString => false
       | String _ k' => hasSuffix s k'
       end.

(** File names and a path join of a Unix system, to run the builders on
    examples. *)
Definition exampleJoin (elems : list string) : string :=
  foldr (fun e path => if decide (path = "") then e else e +:+ "/" +:+ path) "" elems.

Definition exampleFilepath : Filepath :=
  {| filepath_Join := exampleJoin; filepath_Dir := fun path => path +:+ "/.." |}.

Definition exampleTLSFiles : TLSFiles :=
  {| ContainerSharedDir := "/shared";
     caCertFile := "certs/root.crt";
     clientCertFile := "certs/client.crt";
     clientKeyFile := "certs/client.key";
     serverCertFile := "certs/server.crt";
     serverKeyFile := "certs/server.key" |}.

(** ** The project directory and the shared directory *)

(** The operating system as [integration/util.go] uses it, over a state
    [World]: the environment ([os.Getenv], which gives the empty string for a
    variable that is not set), the output of
    [git rev-parse --show-toplevel] ([exec.Command(...).Output()], which may
    change the state), [bytes.TrimSpace], the file operations of [os] and
    [errors.Wrapf]. An error result [None] is Go's [nil]. [SharedDir] is the
    method of [e2e.Scenario]. *)
Class OS := {
  World : Type;
  Err : Type;
  Scenario : Type;
  Getenv : string -> World -> string;
  gitShowToplevel : World -> (string + Err) * World;
  TrimSpace : string -> string;
  ReadFile : string -> World -> string + Err;
  MkdirAll : string -> World -> option Err * World;
  WriteFile : string -> string -> World -> option Err * World;
  Wrapf : Err -> string -> Err;
  SharedDir : Scenario -> string
}.

Definition getMimirProjectDir `{OS} (w : World) : string * World :=
  let dir := Getenv "MIMIR_CHECKOUT_DIR" w in
  if decide (dir <> "") then (dir, w)
  else
    (* use the git path if available *)
    let '(out, w) := gitShowToplevel w in
    match out with
    | inl dir => (TrimSpace dir, w)
    | inr _ => (Getenv "GOPATH" w +:+ "/src/github.com/grafana/mimir", w)
    end.

Definition writeFileToSharedDir `{Filepath, OS}
    (s : Scenario) (dst content : string) (w : World) : option Err * World :=
  let dst := filepath_Join [SharedDir s; dst] in
  (* Ensure the entire path of directories exist. *)
  let '(err, w) := MkdirAll (filepath_Dir dst) w in
  match err with
  | Some err => (Some err, w)
  | None => WriteFile dst content w
  end.

Definition copyFileToSharedDir `{Filepath, OS}
    (s : Scenario) (src dst : string) (w : World) : option Err * World :=
  let '(dir, w) := getMimirProjectDir w in
  match ReadFile (filepath_Join [dir; src]) w with
  | inr err => (Some (Wrapf err ("unable to read local file " +:+ src)), w)
  | inl content => writeFileToSharedDir s dst content w
  end.

(** An operating system for examples: the state is the environment, whether
    git works, the files and the list of the directories made; a directory
    cannot be made where a file is. *)
Module ExampleOS.
Record world : Type := mk {
  environ : gmap string string;
  toplevel : option string;
  files : gmap string string;
  dirs : list string
}.
End ExampleOS.

Definition exampleOS : OS :=
  {| World := ExampleOS.world;
     Err := string;
     Scenario := string;
     Getenv := fun key w => default "" (ExampleOS.environ w !! key);
     gitShowToplevel := fun w =>
       (match ExampleOS.toplevel w with
        | Some dir => inl (dir +:+ " ")
        | None => inr "exit status 128"
        end, w);
     TrimSpace := fun out => String.rev (match String.rev out with
                                         | String " "%char rest => rest
                                         | other => other
                                         end);
     ReadFile := fun path w =>
       match ExampleOS.files w !! path with
       | Some content => inl content
       | None => inr "no such file or directory"
       end;
     MkdirAll := fun path w =>
       if decide (is_Some (ExampleOS.files w !! path))
       then (Some "mkdir: not a directory", w)
       else (None, ExampleOS.mk (ExampleOS.environ w) (ExampleOS.toplevel w)
                     (ExampleOS.files w) (path :: ExampleOS.dirs w));
     WriteFile := fun path content w =>
       (None, ExampleOS.mk (ExampleOS.environ w) (ExampleOS.toplevel w)
                (<[path := content]> (ExampleOS.files w)) (ExampleOS.dirs w));
     Wrapf := fun err msg => msg +:+ ": " +:+ err;
     SharedDir := fun s => s |}.

(** ** The query statistics middleware *)

(** The three counters of a [queryStatsMiddleware]. A Prometheus counter is
    shared by all who hold it and only grows; it is embedded as the number of
    its [Inc] calls. *)
Module Counters.
Record t : Set := mk {
  nonAlignedQueries : nat;
  regexpMatcherCount : nat;
  regexpMatcherOptimizedCount : nat
}.
End Counters.

(** What the middleware takes from its package and from the PromQL parser:
    requests and their query, [isRequestStepAligned], [parser.ParseExpr]
    (a parse error is embedded as its message, the only part of it that is
    used), [parser.ExtractSelectors], the matchers and their
    [IsRegexOptimized], and [apierror.New] with [apierror.TypeBadData]. *)
Class QueryLang := {
  context_Context : Type;
  Request : Type;
  Response : Type;
  Failure : Type;
  Expr : Type;
  Matcher : Type;
  GetQuery : Request -> string;
  isRequestStepAligned : Request -> bool;
  ParseExpr : string -> Expr + string;
  ExtractSelectors : Expr -> list (list Matcher);
  IsRegexOptimized : Matcher -> bool;
  ErrorType : Type;
  TypeBadData : ErrorType;
  apierror_New : ErrorType -> string -> Failure
}.

(** A [Handler]: its method [Do] returns a response and an error, and may
    change the counters and the rest of the state, [W]. *)
Definition Handler `{QueryLang} (W : Type) : Type :=
  context_Context -> Request -> Counters.t * W ->
  (option Response * option Failure) * (Counters.t * W).

(** [s.nonAlignedQueries.Inc()] and the like. *)
Definition incNonAlignedQueries (c : Counters.t) : Counters.t :=
  Counters.mk (S (Counters.nonAlignedQueries c)) (Counters.regexpMatcherCount c)
    (Counters.regexpMatcherOptimizedCount c).

Definition incRegexpMatcherCount (c : Counters.t) : Counters.t :=
  Counters.mk (Counters.nonAlignedQueries c) (S (Counters.regexpMatcherCount c))
    (Counters.regexpMatcherOptimizedCount c).

Definition incRegexpMatcherOptimizedCount (c : Counters.t) : Counters.t :=
  Counters.mk (Counters.nonAlignedQueries c) (Counters.regexpMatcherCount c)
    (S (Counters.regexpMatcherOptimizedCount c)).

(** The body of the inner loop of [Do]. *)
Definition countMatcher `{QueryLang} (c : Counters.t) (matcher : Matcher) : Counters.t :=
  let c := incRegexpMatcherCount c in
  if IsRegexOptimized matcher then incRegexpMatcherOptimizedCount c else c.

(** [queryStatsMiddleware.Do], with [next] the handler of the receiver. *)
Definition Do `{QueryLang} {W : Type} (next : Handler W)
    (ctx : context_Context) (req : Request) (st : Counters.t * W)
    : (option Response * option Failure) * (Counters.t * W) :=
  let '(c, w) := st in
  let c := if negb (isRequestStepAligned req) then incNonAlignedQueries c else c in
  match ParseExpr (GetQuery req) with
  | inr err => ((None, Some (apierror_New TypeBadData err)), (c, w))
  | inl expr =>
      let c := foldl (fun c selectors => foldl countMatcher c selectors)
                 c (ExtractSelectors expr) in
      next ctx req (c, w)
  end.

(** The state after a handler has served a list of requests in order. *)
Definition serveAll `{QueryLang} {W : Type} (h : Handler W) (ctx : context_Context)
    (reqs : list Request) (st : Counters.t * W) : Counters.t * W :=
  foldl (fun st req => (h ctx req st).2) st reqs.

(** No counter of [c1] is above the same counter of [c2]. *)
Definition countersLe (c1 c2 : Counters.t) : Prop :=
  (Counters.nonAlignedQueries c1 <= Counters.nonAlignedQueries c2)%nat
  /\ (Counters.regexpMatcherCount c1 <= Counters.regexpMatcherCount c2)%nat
  /\ (Counters.regexpMatcherOptimizedCount c1
      <= Counters.regexpMatcherOptimizedCount c2)%nat.

(** The matchers of all selectors of the query of a request; none when the
    query does not parse. *)
Definition requestMatchers `{QueryLang} (req : Request) : list Matcher :=
  match ParseExpr (GetQuery req) with
  | inl expr => concat (ExtractSelectors expr)
  | inr _ => []
  end.

(** A query language for examples: a query is one selector, a list of
    matchers separated by spaces; a matcher is optimized when it starts with
    [~]; the empty query does not parse. A request is a query and whether it
    is aligned. *)
Definition exampleQueryLang : QueryLang :=
  {| context_Context := unit;
     Request := string * bool;
     Response := string;
     Failure := string * string;
     Expr := list (list string);
     Matcher := string;
     GetQuery := fst;
     isRequestStepAligned := snd;
     ParseExpr := fun q =>
       if decide (q = "") then inr "unexpected end of input"
       else inl [String.words q];
     ExtractSelectors := fun e => e;
     IsRegexOptimized := fun m =>
       match m with String "~"%char _ => true | _ => false end;
     ErrorType := string;
     TypeBadData := "bad_data";
     apierror_New := fun typ msg => (typ, msg) |}.

(** A last handler that answers with the query and touches nothing. *)
Definition exampleNext : @Handler exampleQueryLang unit :=
  fun _ req st => ((Some (fst req), None), st).

(** ** The generators *)

Section Generators.

(** [time.Time] and [e2e.TimeToMilliseconds], of the [e2e] framework. *)
Variable Time : Type.
Variable TimeToMilliseconds : Time -> Z.

(** The process-wide source of [math/rand], threaded as a state, and
    [rand.Intn], which returns a number of [[0, n)] for [n > 0]. *)
Variable Rand : Type.
Variable Intn : Z -> Rand -> Z * Rand.
Hypothesis Intn_range : forall n r, 0 < n -> 0 <= (Intn n r).1 < n.

(** Modelled from the spec: the deterministic scheme by which the histogram
    encoders of [pkg/util/test], whose sources are not at hand, derive count,
    sum and buckets from the seed; the spec requires one scheme for the four
    variants and for the read-path sample histogram. *)
Variable testScheme : Z -> StatValue.t.

(** Modelled from the spec: [test.GenerateTestHistogram],
    [test.GenerateTestFloatHistogram], [test.GenerateTestGaugeHistogram],
    [test.GenerateTestGaugeFloatHistogram] and
    [test.GenerateTestSampleHistogram] of [pkg/util/test]: same numeric
    content for one seed, differing in the reset marker and in the
    representation. *)
Definition generateTestHistogram (i : Z) : histogram.Histogram.t :=
  histogram.Histogram.mk CounterHistogram (testScheme i).

Definition generateTestFloatHistogram (i : Z) : histogram.FloatHistogram.t :=
  histogram.FloatHistogram.mk CounterHistogram (testScheme i).

Definition generateTestGaugeHistogram (i : Z) : histogram.Histogram.t :=
  histogram.Histogram.mk GaugeHistogram (testScheme i).

Definition generateTestGaugeFloatHistogram (i : Z) : histogram.FloatHistogram.t :=
  histogram.FloatHistogram.mk GaugeHistogram (testScheme i).

Definition generateTestSampleHistogram (i : Z) : model.SampleHistogram.t :=
  model.SampleHistogram.mk (testScheme i).

(** Modelled from the spec: [remote.HistogramToHistogramProto] and
    [remote.FloatHistogramToHistogramProto] of the Prometheus library, the
    write-path encoders: the wire histogram of a histogram at a timestamp. *)
Definition HistogramToHistogramProto (timestamp : Z) (h : histogram.Histogram.t)
    : prompb.Histogram.t :=
  prompb.Histogram.mk (histogram.Histogram.Reset h) IntegerCounts
    (histogram.Histogram.Stat h) timestamp.

Definition FloatHistogramToHistogramProto (timestamp : Z)
    (fh : histogram.FloatHistogram.t) : prompb.Histogram.t :=
  prompb.Histogram.mk (histogram.FloatHistogram.Reset fh) FloatCounts
    (histogram.FloatHistogram.Stat fh) timestamp.

(** [type generateHistogramFunc func(tsMillis int64, value int) prompb.Histogram] *)
Definition generateHistogramFunc : Type := Z -> Z -> prompb.Histogram.t.

(** [type generateSeriesFunc]; a generator may draw from the random source. *)
Definition generateSeriesFunc : Type :=
  string -> Time -> list prompb.Label.t -> Rand ->
  (list prompb.TimeSeries.t * Vector * Matrix) * Rand.

Definition generateHistogramSeriesWrapper (generateHistogram : generateHistogramFunc)
    (name : string) (ts : Time) (additionalLabels : list prompb.Label.t)
    (rnd : Rand) : (list prompb.TimeSeries.t * Vector * Matrix) * Rand :=
  let tsMillis := TimeToMilliseconds ts in
  let '(value, rnd) := Intn 1000 rnd in
  let lbls := [prompb.Label.mk MetricName name] ++ additionalLabels in
  (* Generate the series *)
  let series := [] ++ [prompb.TimeSeries.mk lbls []
                         [prompb.Exemplar.mk traceLabels (float64 value) tsMillis]
                         [generateHistogram tsMillis value]] in
  (* Generate the expected vector and matrix when querying it *)
  let metric : Metric := ∅ in
  let metric := <[MetricName := name]> metric in
  let metric := setLabels metric additionalLabels in
  let vector := [] ++ [model.Sample.mk metric 0%float tsMillis
                         (Some (generateTestSampleHistogram value))] in
  let matrix := [] ++ [model.SampleStream.mk metric []
                         [model.SampleHistogramPair.mk tsMillis
                            (Some (generateTestSampleHistogram value))]] in
  (series, vector, matrix, rnd).

Definition GenerateHistogramSeries : generateSeriesFunc :=
  generateHistogramSeriesWrapper (fun tsMillis value =>
    HistogramToHistogramProto tsMillis (generateTestHistogram value)).

Definition GenerateFloatHistogramSeries : generateSeriesFunc :=
  generateHistogramSeriesWrapper (fun tsMillis value =>
    FloatHistogramToHistogramProto tsMillis (generateTestFloatHistogram value)).

Definition GenerateGaugeHistogramSeries : generateSeriesFunc :=
  generateHistogramSeriesWrapper (fun tsMillis value =>
    HistogramToHistogramProto tsMillis (generateTestGaugeHistogram value)).

Definition GenerateGaugeFloatHistogramSeries : generateSeriesFunc :=
  generateHistogramSeriesWrapper (fun tsMillis value =>
    FloatHistogramToHistogramProto tsMillis (generateTestGaugeFloatHistogram value)).

(** The four single-series histogram generators: counter-integer,
    counter-float, gauge-integer, gauge-float. *)
Definition histogramSeriesGenerators : list generateSeriesFunc :=
  [ GenerateHistogramSeries; GenerateFloatHistogramSeries;
    GenerateGaugeHistogramSeries; GenerateGaugeFloatHistogramSeries ].

(** [e2e.GenerateSeries], the float-sample generator of the framework. *)
Variable generateFloatSeries : generateSeriesFunc.

(** The function a reference of the selector refers to. *)
Definition callSeriesFunc (f : SeriesFuncRef) : generateSeriesFunc :=
  match f with
  | generateFloatSeriesRef => generateFloatSeries
  | generateHistogramSeriesRef => GenerateHistogramSeries
  | GenerateFloatHistogramSeriesRef => GenerateFloatHistogramSeries
  | GenerateGaugeHistogramSeriesRef => GenerateGaugeHistogramSeries
  | GenerateGaugeFloatHistogramSeriesRef => GenerateGaugeFloatHistogramSeries
  end.

(** *** The bulk generator *)

(** The callbacks [name func() string] and
    [additionalLabels func() []prompb.Label] are closures: each call may
    change the variables they capture, the state [Env]. A [nil]
    [additionalLabels] is [None]. *)
Variable Env : Type.

(** Body of the first loop: build series [i]. *)
Definition buildSeries (tsMillis nExemplars : Z) (name : Env -> string * Env)
    (additionalLabels : option (Env -> list prompb.Label.t * Env))
    (i : Z) (st : list prompb.TimeSeries.t * Env) : option (list prompb.TimeSeries.t * Env) :=
  let '(series, env) := st in
  let '(n, env) := name env in
  let lbls := [prompb.Label.mk MetricName n] in
  let '(lbls, env) :=
    match additionalLabels with
    | Some additionalLabels =>
        let '(more, env) := additionalLabels env in (lbls ++ more, env)
    | None => (lbls, env)
    end in
  let exemplars : list prompb.Exemplar.t := [] in
  let exemplars :=
    if decide (i < nExemplars)
    then [prompb.Exemplar.mk traceLabels (float64 i) tsMillis]
    else exemplars in
  Some (series ++ [prompb.TimeSeries.mk lbls [] exemplars
                     [HistogramToHistogramProto tsMillis (generateTestHistogram i)]],
        env).

(** Body of the second loop: the expected sample of series [i]; [series[i]]
    panics when [i] is out of range. *)
Definition buildSample (tsMillis : Z) (series : list prompb.TimeSeries.t)
    (i : Z) (vector : Vector) : option Vector :=
  s ← series !! Z.to_nat i;
  let metric : Metric := ∅ in
  let metric := setLabels metric (prompb.TimeSeries.Labels s) in
  Some (vector ++ [model.Sample.mk metric 0%float tsMillis
                     (Some (generateTestSampleHistogram i))]).

Definition GenerateNHistogramSeries (nSeries nExemplars : Z)
    (name : Env -> string * Env) (ts : Time)
    (additionalLabels : option (Env -> list prompb.Label.t * Env))
    (env : Env) : option (list prompb.TimeSeries.t * Vector * Env) :=
  let tsMillis := TimeToMilliseconds ts in
  (* Generate the series *)
  '(series, env) ← for_range 0 (Z.to_nat nSeries)
                     (buildSeries tsMillis nExemplars name additionalLabels)
                     ([], env);
  (* Generate the expected vector when querying it *)
  vector ← for_range 0 (Z.to_nat nSeries) (buildSample tsMillis series) [];
  Some (series, vector, env).

(** What the first loop makes of series [i], whatever the callbacks
    return: the metric-name label first, the histogram of seed [i], an
    exemplar of value [i] when [i < nExemplars]. *)
Definition seriesOfIndex (tsMillis nExemplars i : Z) (s : prompb.TimeSeries.t) : Prop :=
  (exists n more, prompb.TimeSeries.Labels s = prompb.Label.mk MetricName n :: more)
  /\ prompb.TimeSeries.Samples s = []
  /\ prompb.TimeSeries.Exemplars s
     = (if decide (i < nExemplars)
        then [prompb.Exemplar.mk traceLabels (float64 i) tsMillis] else [])
  /\ prompb.TimeSeries.Histograms s
     = [HistogramToHistogramProto tsMillis (generateTestHistogram i)].

(** The expected sample the second loop derives from series [s] at
    index [i]. *)
Definition sampleOfSeries (tsMillis i : Z) (s : prompb.TimeSeries.t) : model.Sample.t :=
  model.Sample.mk (setLabels ∅ (prompb.TimeSeries.Labels s)) 0%float tsMillis
    (Some (generateTestSampleHistogram i)).

(** ** Properties *)

(** *** Label sets *)

Lemma label_eta (l : prompb.Label.t) :
  prompb.Label.mk (prompb.Label.Name l) (prompb.Label.Value l) = l.
Proof. now destruct l. Qed.

(** Every binding of the metric comes from the initial metric or from a
    label of the list. *)
Lemma setLabels_lookup_Some (m : Metric) ls n v :
  setLabels m ls !! n = Some v ->
  m !! n = Some v \/ prompb.Label.mk n v ∈ ls.
Proof.
  revert m. induction ls as [|l ls IH]; intros m; simpl; [now left|].
  intros H. destruct (IH _ H) as [Hm|Hin].
  - unfold setLabel in Hm. rewrite lookup_insert in Hm.
    case_decide as Hn.
    + right. inversion Hm; subst. apply elem_of_cons. left. apply label_eta.
    + now left.
  - right. apply elem_of_cons. now right.
Qed.

(** The names of the metric are those of the initial metric and of the
    list. *)
Lemma setLabels_dom (m : Metric) ls :
  dom (setLabels m ls) = dom m ∪ list_to_set (prompb.Label.Name <$> ls).
Proof.
  revert m. induction ls as [|l ls IH]; intros m; simpl.
  - now rewrite union_empty_r_L.
  - rewrite IH. unfold setLabel. rewrite dom_insert_L.
    now rewrite (union_comm_L {[prompb.Label.Name l]} (dom m)), union_assoc_L.
Qed.

(** Every name of the list is bound in the metric. *)
Lemma setLabels_lookup_elem (m : Metric) ls l :
  l ∈ ls -> is_Some (setLabels m ls !! prompb.Label.Name l).
Proof.
  intros Hl. apply elem_of_dom. rewrite setLabels_dom.
  apply elem_of_union_r, elem_of_list_to_set, list_elem_of_fmap. now exists l.
Qed.

(** Setting the labels of a list in an empty metric gives the label set of
    the list exactly when the list gives no name two different values. *)
Lemma setLabels_sameLabelSet_iff ls :
  sameLabelSet ls (setLabels ∅ ls) <-> consistentLabels ls.
Proof.
  split.
  - intros Hsame l1 l2 H1 H2 Hname.
    rewrite <- (label_eta l1) in H1. rewrite <- (label_eta l2) in H2.
    apply Hsame in H1. apply Hsame in H2. rewrite Hname in H1. congruence.
  - intros Hcons n v. split.
    + intros H. apply setLabels_lookup_Some in H as [H|H]; [|exact H].
      now rewrite lookup_empty in H.
    + intros Hin. destruct (setLabels_lookup_elem ∅ ls _ Hin) as [v' Hv'].
      cbn [prompb.Label.Name] in Hv'. rewrite Hv'. f_equal.
      apply setLabels_lookup_Some in Hv' as [Hv'|Hv'];
        [now rewrite lookup_empty in Hv'|].
      exact (Hcons _ _ Hv' Hin eq_refl).
Qed.

Lemma NoDup_consistentLabels ls :
  NoDup (prompb.Label.Name <$> ls) -> consistentLabels ls.
Proof.
  intros Hnd l1 l2 H1 H2 Hname.
  apply list_elem_of_lookup in H1 as [i Hi]. apply list_elem_of_lookup in H2 as [j Hj].
  assert (i = j) as ->.
  { apply (NoDup_lookup _ i j (prompb.Label.Name l1) Hnd).
    - now rewrite list_lookup_fmap, Hi.
    - now rewrite list_lookup_fmap, Hj, Hname. }
  congruence.
Qed.

(** *** Counted loops *)

Lemma for_range_invariant {St : Type} (P : Z -> St -> Prop)
    (body : Z -> St -> option St) (count : nat) :
  forall i s,
    P i s ->
    (forall j s, i <= j < i + Z.of_nat count -> P j s ->
                 exists s', body j s = Some s' /\ P (j + 1) s') ->
    exists s', for_range i count body s = Some s' /\ P (i + Z.of_nat count) s'.
Proof.
  induction count as [|count IH]; intros i s HP Hbody; cbn [for_range].
  - exists s. split; [reflexivity|].
    now replace (i + Z.of_nat 0) with i by lia.
  - destruct (Hbody i s ltac:(lia) HP) as (s1 & -> & HP1). cbn [mbind option_bind].
    destruct (IH (i + 1) s1 HP1) as (s' & Hrun & HP').
    + intros j t Hj. apply Hbody. lia.
    + exists s'. split; [exact Hrun|].
      now replace (i + Z.of_nat (S count)) with (i + 1 + Z.of_nat count) by lia.
Qed.

(** *** The single-series generators *)

(** The result of the wrapper, written out: one series, one sample, one
    stream, all from the one seed drawn. *)
Lemma generateHistogramSeriesWrapper_eq (generateHistogram : generateHistogramFunc)
    name ts additionalLabels rnd :
  generateHistogramSeriesWrapper generateHistogram name ts additionalLabels rnd =
  let tsMillis := TimeToMilliseconds ts in
  let value := (Intn 1000 rnd).1 in
  let lbls := prompb.Label.mk MetricName name :: additionalLabels in
  ([prompb.TimeSeries.mk lbls []
      [prompb.Exemplar.mk traceLabels (float64 value) tsMillis]
      [generateHistogram tsMillis value]],
   [model.Sample.mk (setLabels ∅ lbls) 0%float tsMillis
      (Some (generateTestSampleHistogram value))],
   [model.SampleStream.mk (setLabels ∅ lbls) []
      [model.SampleHistogramPair.mk tsMillis (Some (generateTestSampleHistogram value))]],
   (Intn 1000 rnd).2).
Proof.
  unfold generateHistogramSeriesWrapper.
  now destruct (Intn 1000 rnd) as [value rnd'].
Qed.

(** Unfolds the four generators of a [Forall] over
    [histogramSeriesGenerators] down to the written-out result. *)
Ltac each_histogram_generator :=
  unfold histogramSeriesGenerators;
  repeat (apply List.Forall_cons); [..|apply List.Forall_nil];
  intros;
  unfold GenerateHistogramSeries, GenerateFloatHistogramSeries,
    GenerateGaugeHistogramSeries, GenerateGaugeFloatHistogramSeries;
  rewrite generateHistogramSeriesWrapper_eq; cbn zeta.

(** The histogram references of the selector refer to the four histogram
    generators. *)
Lemma callSeriesFunc_histogram :
  callSeriesFunc <$> drop 1 seriesCycle = histogramSeriesGenerators.
Proof. reflexivity. Qed.

(** C1. For each of the four histogram generators and whatever seed [v] the
    call draws, the statistical value (count, sum, buckets) of the wire
    histogram in the generated series equals the statistical value of the
    sample histogram in the expected vector entry and in the expected matrix
    entry; all three are the value of the scheme at [v]. *)
Theorem histogram_value_correspondence :
  Forall (fun gen : generateSeriesFunc =>
    forall name ts additionalLabels rnd v rnd',
      Intn 1000 rnd = (v, rnd') ->
      exists s h e eh st p ph,
        gen name ts additionalLabels rnd = ([s], [e], [st], rnd')
        /\ prompb.TimeSeries.Histograms s = [h]
        /\ model.Sample.Histogram e = Some eh
        /\ model.SampleStream.Histograms st = [p]
        /\ model.SampleHistogramPair.Histogram p = Some ph
        /\ prompb.Histogram.Stat h = model.SampleHistogram.Stat eh
        /\ prompb.Histogram.Stat h = model.SampleHistogram.Stat ph
        /\ prompb.Histogram.Stat h = testScheme v)
    histogramSeriesGenerators.
Proof.
  each_histogram_generator;
    match goal with H : Intn 1000 _ = _ |- _ => rewrite H end;
    do 7 eexists; repeat split.
Qed.

(** C6. For each of the four histogram generators and every timestamp, the
    wire histogram sample and the wire exemplar carry the timestamp converted
    to milliseconds, and so do the expected vector entry and the pair of the
    expected matrix entry. *)
Theorem histogram_timestamp_propagation :
  Forall (fun gen : generateSeriesFunc =>
    forall name ts additionalLabels rnd,
      exists s h x e st p,
        (gen name ts additionalLabels rnd).1 = ([s], [e], [st])
        /\ prompb.TimeSeries.Histograms s = [h]
        /\ prompb.TimeSeries.Exemplars s = [x]
        /\ model.SampleStream.Histograms st = [p]
        /\ prompb.Histogram.Timestamp h = TimeToMilliseconds ts
        /\ prompb.Exemplar.Timestamp x = TimeToMilliseconds ts
        /\ model.Sample.Timestamp e = TimeToMilliseconds ts
        /\ model.SampleHistogramPair.Timestamp p = TimeToMilliseconds ts)
    histogramSeriesGenerators.
Proof.
  each_histogram_generator; do 6 eexists; repeat split.
Qed.

(** C8. Each of the four histogram generators returns one series, which
    holds exactly one histogram sample (and no float sample), one expected
    vector entry, and one expected matrix stream, which holds exactly one
    timestamp/histogram pair. *)
Theorem histogram_generators_singleton :
  Forall (fun gen : generateSeriesFunc =>
    forall name ts additionalLabels rnd,
      exists s h e st p,
        (gen name ts additionalLabels rnd).1 = ([s], [e], [st])
        /\ prompb.TimeSeries.Histograms s = [h]
        /\ prompb.TimeSeries.Samples s = []
        /\ model.SampleStream.Histograms st = [p]
        /\ model.SampleStream.Values st = [])
    histogramSeriesGenerators.
Proof.
  each_histogram_generator; do 5 eexists; repeat split.
Qed.

(** C7. Every call of the wrapper draws one seed [v] with [0 <= v <= 999];
    the series it generates carries exactly one exemplar, with value [v],
    the timestamp of the call and the one label [trace_id]; the expected
    vector entry and the expected matrix stream consist of the metric, the
    timestamp and the sample histogram of [v] only: no exemplar is part of
    them. *)
Theorem wrapper_exemplar (generateHistogram : generateHistogramFunc)
    name ts additionalLabels rnd :
  exists v rnd' s e st,
    Intn 1000 rnd = (v, rnd')
    /\ 0 <= v <= 999
    /\ generateHistogramSeriesWrapper generateHistogram name ts additionalLabels rnd
       = ([s], [e], [st], rnd')
    /\ prompb.TimeSeries.Exemplars s
       = [prompb.Exemplar.mk [prompb.Label.mk "trace_id" "1234"]
            (float64 v) (TimeToMilliseconds ts)]
    /\ e = model.Sample.mk (model.Sample.Metric e) 0%float (TimeToMilliseconds ts)
             (Some (generateTestSampleHistogram v))
    /\ st = model.SampleStream.mk (model.Sample.Metric e) []
              [model.SampleHistogramPair.mk (TimeToMilliseconds ts)
                 (Some (generateTestSampleHistogram v))].
Proof.
  rewrite generateHistogramSeriesWrapper_eq. cbn zeta.
  pose proof (Intn_range 1000 rnd ltac:(lia)) as Hv.
  destruct (Intn 1000 rnd) as [v rnd']; cbn [fst snd] in *.
  exists v, rnd'. do 3 eexists.
  split; [reflexivity|]. split; [lia|]. repeat split.
Qed.

(** C2, as amended. When no label name is given two different values by the
    metric-name label and the additional labels together, the label set of
    the expected vector entry and of the expected matrix entry is exactly
    that of the generated series: same names, same values, the metric name
    with the name of the call among them. *)
Theorem wrapper_label_fidelity (generateHistogram : generateHistogramFunc)
    name ts additionalLabels rnd :
  consistentLabels (prompb.Label.mk MetricName name :: additionalLabels) ->
  exists s e st,
    (generateHistogramSeriesWrapper generateHistogram name ts additionalLabels rnd).1
    = ([s], [e], [st])
    /\ prompb.TimeSeries.Labels s = prompb.Label.mk MetricName name :: additionalLabels
    /\ sameLabelSet (prompb.TimeSeries.Labels s) (model.Sample.Metric e)
    /\ sameLabelSet (prompb.TimeSeries.Labels s) (model.SampleStream.Metric st)
    /\ model.Sample.Metric e !! MetricName = Some name.
Proof.
  intros Hcons. rewrite generateHistogramSeriesWrapper_eq. cbn zeta.
  do 3 eexists. split; [reflexivity|].
  cbn [prompb.TimeSeries.Labels model.Sample.Metric model.SampleStream.Metric].
  apply setLabels_sameLabelSet_iff in Hcons as Hsame.
  split; [reflexivity|]. split; [exact Hsame|]. split; [exact Hsame|].
  apply Hsame. apply elem_of_cons. now left.
Qed.

(** *** The bulk generator *)

Section Bulk.

Variables (tsMillis nExemplars : Z).
Variable name : Env -> string * Env.
Variable additionalLabels : option (Env -> list prompb.Label.t * Env).

Lemma buildSeries_step i series env :
  exists s env',
    buildSeries tsMillis nExemplars name additionalLabels i (series, env)
    = Some (series ++ [s], env')
    /\ seriesOfIndex tsMillis nExemplars i s.
Proof.
  unfold buildSeries, seriesOfIndex.
  destruct (name env) as [n env1].
  destruct additionalLabels as [f|]; [destruct (f env1) as [more env2]|];
    do 2 eexists; (split; [reflexivity|]); cbn;
    (split; [eauto|]); repeat split.
Qed.

Lemma buildSeries_loop (count : nat) env :
  exists series env',
    for_range 0 count (buildSeries tsMillis nExemplars name additionalLabels)
      ([], env) = Some (series, env')
    /\ length series = count
    /\ forall (k : nat) s, series !! k = Some s -> seriesOfIndex tsMillis nExemplars (Z.of_nat k) s.
Proof.
  destruct (for_range_invariant
              (fun j (st : list prompb.TimeSeries.t * Env) =>
                 length st.1 = Z.to_nat j
                 /\ forall (k : nat) s, st.1 !! k = Some s ->
                                        seriesOfIndex tsMillis nExemplars (Z.of_nat k) s)
              (buildSeries tsMillis nExemplars name additionalLabels)
              count 0 ([], env)) as ([series env'] & Hrun & Hlen & Hshape).
  - split; [reflexivity|]. intros k s Hk. cbn [fst] in Hk.
    now rewrite lookup_nil in Hk.
  - intros j [series env0] Hj [Hlen Hshape]. cbn [fst] in *.
    destruct (buildSeries_step j series env0) as (s & env1 & -> & Hs).
    eexists. split; [reflexivity|]. cbn [fst]. split.
    + rewrite length_app, Hlen. cbn. lia.
    + intros k s' Hk. apply lookup_app_Some in Hk as [Hk|[Hge Hk]].
      * now apply Hshape.
      * apply list_lookup_singleton_Some in Hk as [Hk0 <-].
        replace (Z.of_nat k) with j by lia. exact Hs.
  - exists series, env'. cbn [fst] in *. split; [exact Hrun|].
    split; [lia|exact Hshape].
Qed.

Lemma buildSample_loop (series : list prompb.TimeSeries.t) (count : nat) :
  (count <= length series)%nat ->
  exists vector,
    for_range 0 count (buildSample tsMillis series) [] = Some vector
    /\ length vector = count
    /\ forall (k : nat) e, vector !! k = Some e ->
         exists s, series !! k = Some s /\ e = sampleOfSeries tsMillis (Z.of_nat k) s.
Proof.
  intros Hcount.
  destruct (for_range_invariant
              (fun j (vector : Vector) =>
                 length vector = Z.to_nat j
                 /\ forall (k : nat) e, vector !! k = Some e ->
                      exists s, series !! k = Some s
                                /\ e = sampleOfSeries tsMillis (Z.of_nat k) s)
              (buildSample tsMillis series)
              count 0 []) as (vector & Hrun & Hlen & Hshape).
  - split; [reflexivity|]. intros k e Hk. now rewrite lookup_nil in Hk.
  - intros j vector Hj [Hlen Hshape].
    destruct (lookup_lt_is_Some_2 series (Z.to_nat j) ltac:(lia)) as [s Hs].
    unfold buildSample. rewrite Hs. cbn [mbind option_bind].
    eexists. split; [reflexivity|]. split.
    + rewrite length_app, Hlen. cbn. lia.
    + intros k e Hk. apply lookup_app_Some in Hk as [Hk|[Hge Hk]].
      * now apply Hshape.
      * apply list_lookup_singleton_Some in Hk as [Hk0 <-].
        replace k with (Z.to_nat j) by lia. exists s. split; [exact Hs|].
        unfold sampleOfSeries. now replace (Z.of_nat (Z.to_nat j)) with j by lia.
  - exists vector. split; [exact Hrun|]. split; [lia|exact Hshape].
Qed.

End Bulk.

(** The bulk generator returns; its series are those of the first loop,
    which alone runs the callbacks, and its vector is derived from them. *)
Lemma GenerateNHistogramSeries_spec nSeries nExemplars name ts additionalLabels env :
  let tsMillis := TimeToMilliseconds ts in
  exists series vector env',
    GenerateNHistogramSeries nSeries nExemplars name ts additionalLabels env
    = Some (series, vector, env')
    /\ for_range 0 (Z.to_nat nSeries)
         (buildSeries tsMillis nExemplars name additionalLabels) ([], env)
       = Some (series, env')
    /\ length series = Z.to_nat nSeries
    /\ length vector = Z.to_nat nSeries
    /\ (forall (k : nat) s, series !! k = Some s ->
          seriesOfIndex tsMillis nExemplars (Z.of_nat k) s)
    /\ (forall (k : nat) e, vector !! k = Some e ->
          exists s, series !! k = Some s
                    /\ e = sampleOfSeries tsMillis (Z.of_nat k) s).
Proof.
  intros tsMillis. unfold GenerateNHistogramSeries. fold tsMillis.
  destruct (buildSeries_loop tsMillis nExemplars name additionalLabels
              (Z.to_nat nSeries) env) as (series & env' & Hrun & Hlen & Hshape).
  destruct (buildSample_loop tsMillis series (Z.to_nat nSeries) ltac:(lia))
    as (vector & Hrun2 & Hlen2 & Hshape2).
  exists series, vector, env'. rewrite Hrun. cbn [mbind option_bind].
  rewrite Hrun2. cbn [mbind option_bind]. auto 10.
Qed.

(** C3. The bulk generator returns [N] series and [N] expected samples
    ([N] the series count, none when it is not positive). At every index
    [i] of [[0, N)], series [i] carries exactly one exemplar, of value [i],
    when [i < M] and none otherwise, and the one histogram of seed [i];
    expected sample [i] carries the sample histogram of seed [i]. *)
Theorem GenerateNHistogramSeries_index_aligned
    nSeries nExemplars name ts additionalLabels env :
  exists series vector env',
    GenerateNHistogramSeries nSeries nExemplars name ts additionalLabels env
    = Some (series, vector, env')
    /\ length series = Z.to_nat nSeries
    /\ length vector = Z.to_nat nSeries
    /\ forall i, 0 <= i < nSeries ->
         exists s e,
           series !! Z.to_nat i = Some s
           /\ vector !! Z.to_nat i = Some e
           /\ prompb.TimeSeries.Exemplars s
              = (if decide (i < nExemplars)
                 then [prompb.Exemplar.mk [prompb.Label.mk "trace_id" "1234"]
                         (float64 i) (TimeToMilliseconds ts)]
                 else [])
           /\ prompb.TimeSeries.Histograms s
              = [HistogramToHistogramProto (TimeToMilliseconds ts)
                   (generateTestHistogram i)]
           /\ model.Sample.Histogram e = Some (generateTestSampleHistogram i)
           /\ model.Sample.Timestamp e = TimeToMilliseconds ts.
Proof.
  destruct (GenerateNHistogramSeries_spec nSeries nExemplars name ts
              additionalLabels env)
    as (series & vector & env' & Hrun & _ & Hlen & Hlen2 & Hshape & Hshape2).
  exists series, vector, env'. do 3 (split; [assumption|]).
  intros i Hi.
  destruct (lookup_lt_is_Some_2 series (Z.to_nat i) ltac:(lia)) as [s Hs].
  destruct (lookup_lt_is_Some_2 vector (Z.to_nat i) ltac:(lia)) as [e He].
  exists s, e. do 2 (split; [assumption|]).
  destruct (Hshape _ _ Hs) as (_ & _ & Hex & Hh).
  destruct (Hshape2 _ _ He) as (s' & Hs' & ->).
  replace (Z.of_nat (Z.to_nat i)) with i in * by lia.
  now rewrite Hex, Hh.
Qed.

(** C5, as amended. The label set of expected sample [i] is derived from
    the labels of the series [i] the first loop built (the callbacks run in
    the first loop only): it is the metric obtained by setting the labels of
    series [i] in order. It has exactly the label names of series [i], the
    metric name among them, and each of its bindings is a label of series
    [i]; it is exactly the label set of series [i] if and only if the labels
    of series [i] give no name two different values. *)
Theorem GenerateNHistogramSeries_labels_derived
    nSeries nExemplars name ts additionalLabels env :
  exists series vector env',
    GenerateNHistogramSeries nSeries nExemplars name ts additionalLabels env
    = Some (series, vector, env')
    /\ for_range 0 (Z.to_nat nSeries)
         (buildSeries (TimeToMilliseconds ts) nExemplars name additionalLabels)
         ([], env)
       = Some (series, env')
    /\ forall i, 0 <= i < nSeries ->
         exists s e,
           series !! Z.to_nat i = Some s
           /\ vector !! Z.to_nat i = Some e
           /\ model.Sample.Metric e = setLabels ∅ (prompb.TimeSeries.Labels s)
           /\ dom (model.Sample.Metric e)
              = list_to_set (prompb.Label.Name <$> prompb.TimeSeries.Labels s)
           /\ MetricName ∈ dom (model.Sample.Metric e)
           /\ (forall n v, model.Sample.Metric e !! n = Some v ->
                           prompb.Label.mk n v ∈ prompb.TimeSeries.Labels s)
           /\ (sameLabelSet (prompb.TimeSeries.Labels s) (model.Sample.Metric e)
               <-> consistentLabels (prompb.TimeSeries.Labels s)).
Proof.
  destruct (GenerateNHistogramSeries_spec nSeries nExemplars name ts
              additionalLabels env)
    as (series & vector & env' & Hrun & Hloop & Hlen & Hlen2 & Hshape & Hshape2).
  exists series, vector, env'. do 2 (split; [assumption|]).
  intros i Hi.
  destruct (lookup_lt_is_Some_2 series (Z.to_nat i) ltac:(lia)) as [s Hs].
  destruct (lookup_lt_is_Some_2 vector (Z.to_nat i) ltac:(lia)) as [e He].
  exists s, e. do 2 (split; [assumption|]).
  destruct (Hshape _ _ Hs) as ((n & more & Hlbls) & _).
  destruct (Hshape2 _ _ He) as (s' & Hs' & ->).
  assert (s' = s) as -> by congruence.
  cbn [sampleOfSeries model.Sample.Metric].
  assert (Hdom : dom (setLabels ∅ (prompb.TimeSeries.Labels s))
                 = list_to_set (prompb.Label.Name <$> prompb.TimeSeries.Labels s)).
  { rewrite setLabels_dom, dom_empty_L. apply union_empty_l_L. }
  split; [reflexivity|]. split; [exact Hdom|]. split.
  - rewrite Hdom, Hlbls. cbn. apply elem_of_union_l. now apply elem_of_singleton.
  - split.
    + intros n' v Hnv. apply setLabels_lookup_Some in Hnv as [Hnv|Hnv]; [|exact Hnv].
      now rewrite lookup_empty in Hnv.
    + apply setLabels_sameLabelSet_iff.
Qed.

(** C10. With a series count that is not positive the bulk generator
    returns, with no series and no expected sample, whatever the exemplar
    count; the state captured by the callbacks is returned as it was given,
    whatever the callbacks do when called: none of them is called. *)
Theorem GenerateNHistogramSeries_nonpositive
    nSeries nExemplars name ts additionalLabels env :
  nSeries <= 0 ->
  GenerateNHistogramSeries nSeries nExemplars name ts additionalLabels env
  = Some ([], [], env).
Proof.
  intros Hn. unfold GenerateNHistogramSeries.
  now replace (Z.to_nat nSeries) with 0%nat by lia.
Qed.

(** *** The expected metric in general: the last label of a name wins *)

Lemma lastValue_cons n l ls :
  lastValue n (l :: ls)
  = match lastValue n ls with
    | Some v => Some v
    | None => if decide (prompb.Label.Name l = n)
              then Some (prompb.Label.Value l) else None
    end.
Proof.
  unfold lastValue. rewrite filter_cons.
  destruct (decide (prompb.Label.Name l = n)) as [Hn|Hn].
  - rewrite fmap_cons, last_cons.
    now destruct (last (prompb.Label.Value <$> filter _ ls)).
  - now destruct (last (prompb.Label.Value <$> filter _ ls)).
Qed.

Lemma setLabels_lookup_lastValue (m : Metric) ls n :
  setLabels m ls !! n
  = match lastValue n ls with Some v => Some v | None => m !! n end.
Proof.
  revert m. induction ls as [|l ls IH]; intros m; [reflexivity|].
  change (setLabels m (l :: ls)) with (setLabels (setLabel m l) ls).
  rewrite IH, lastValue_cons. destruct (lastValue n ls) as [v|]; [reflexivity|].
  unfold setLabel. rewrite lookup_insert.
  now destruct (decide (prompb.Label.Name l = n)).
Qed.

(** X1. Whatever the additional labels, the metric of the expected vector
    entry and of the expected matrix stream binds a name to the value of the
    last label of that name on the generated series, and binds no other
    name: of two labels with one name the later one is kept, and an
    additional label named [__name__] replaces the metric name. *)
Theorem wrapper_metric_last_value (generateHistogram : generateHistogramFunc)
    name ts additionalLabels rnd :
  exists s e st,
    (generateHistogramSeriesWrapper generateHistogram name ts additionalLabels rnd).1
    = ([s], [e], [st])
    /\ prompb.TimeSeries.Labels s = prompb.Label.mk MetricName name :: additionalLabels
    /\ model.SampleStream.Metric st = model.Sample.Metric e
    /\ forall n, model.Sample.Metric e !! n = lastValue n (prompb.TimeSeries.Labels s).
Proof.
  rewrite generateHistogramSeriesWrapper_eq. cbn zeta.
  do 3 eexists. do 3 (split; [reflexivity|]).
  intros n. cbn [model.Sample.Metric prompb.TimeSeries.Labels].
  rewrite setLabels_lookup_lastValue, lookup_empty.
  now destruct (lastValue n _).
Qed.

(** X2. The same for the bulk generator: the metric of expected sample [i]
    binds a name to the value of the last label of that name on series [i],
    and binds no other name. *)
Theorem GenerateNHistogramSeries_metric_last_value
    nSeries nExemplars name ts additionalLabels env :
  exists series vector env',
    GenerateNHistogramSeries nSeries nExemplars name ts additionalLabels env
    = Some (series, vector, env')
    /\ forall i, 0 <= i < nSeries ->
         exists s e,
           series !! Z.to_nat i = Some s
           /\ vector !! Z.to_nat i = Some e
           /\ forall n, model.Sample.Metric e !! n
                        = lastValue n (prompb.TimeSeries.Labels s).
Proof.
  destruct (GenerateNHistogramSeries_spec nSeries nExemplars name ts
              additionalLabels env)
    as (series & vector & env' & Hrun & _ & Hlen & Hlen2 & _ & Hshape2).
  exists series, vector, env'. split; [assumption|].
  intros i Hi.
  destruct (lookup_lt_is_Some_2 series (Z.to_nat i) ltac:(lia)) as [s Hs].
  destruct (lookup_lt_is_Some_2 vector (Z.to_nat i) ltac:(lia)) as [e He].
  exists s, e. do 2 (split; [assumption|]).
  destruct (Hshape2 _ _ He) as (s' & Hs' & ->).
  assert (s' = s) as -> by congruence.
  intros n. cbn [sampleOfSeries model.Sample.Metric].
  rewrite setLabels_lookup_lastValue, lookup_empty.
  now destruct (lastValue n _).
Qed.

(** *** The expected results do not depend on the encoder *)

(** X3. Two calls of the wrapper that differ in the histogram encoder only
    return the same expected vector, the same expected matrix and the same
    state of the random source, and series with the same labels and the same
    exemplar: the encoder decides the wire histogram and nothing else. *)
Theorem wrapper_expected_independent (generateHistogram1 generateHistogram2 : generateHistogramFunc)
    name ts additionalLabels rnd :
  exists s1 s2 vector matrix rnd',
    generateHistogramSeriesWrapper generateHistogram1 name ts additionalLabels rnd
    = ([s1], vector, matrix, rnd')
    /\ generateHistogramSeriesWrapper generateHistogram2 name ts additionalLabels rnd
       = ([s2], vector, matrix, rnd')
    /\ prompb.TimeSeries.Labels s1 = prompb.TimeSeries.Labels s2
    /\ prompb.TimeSeries.Exemplars s1 = prompb.TimeSeries.Exemplars s2
    /\ prompb.TimeSeries.Samples s1 = prompb.TimeSeries.Samples s2.
Proof.
  rewrite !generateHistogramSeriesWrapper_eq. cbn zeta.
  do 5 eexists. repeat split.
Qed.

(** *** Exemplar values *)

(** Every seed of the wrapper is converted to binary64 without rounding. *)
Lemma float64_seed_exact (v : Z) :
  0 <= v < 1000 -> floatIntValue (float64 v) = Some v.
Proof.
  intros Hv.
  assert (Hall : Forall (fun v => floatIntValue (float64 v) = Some v) (seqZ 0 1000))
    by (apply (bool_decide_unpack _); vm_compute; exact I).
  rewrite Forall_forall in Hall. apply Hall, elem_of_seqZ. lia.
Qed.

(** X4. The value of the exemplar that the wrapper attaches is exactly the
    seed drawn: a binary64 number equal to that integer. *)
Theorem wrapper_exemplar_value_exact (generateHistogram : generateHistogramFunc)
    name ts additionalLabels rnd :
  exists s x,
    (generateHistogramSeriesWrapper generateHistogram name ts additionalLabels rnd).1.1.1
    = [s]
    /\ prompb.TimeSeries.Exemplars s = [x]
    /\ floatIntValue (prompb.Exemplar.Value x) = Some (Intn 1000 rnd).1.
Proof.
  rewrite generateHistogramSeriesWrapper_eq. cbn zeta.
  do 2 eexists. do 2 (split; [reflexivity|]).
  cbn [prompb.Exemplar.Value]. apply float64_seed_exact.
  pose proof (Intn_range 1000 rnd ltac:(lia)). lia.
Qed.

(** *** The callbacks of the bulk generator *)

Lemma buildSeries_eq tsMillis nExemplars name additionalLabels i series env :
  buildSeries tsMillis nExemplars name additionalLabels i (series, env)
  = let '(n, env1) := name env in
    let '(more, env2) :=
      match additionalLabels with
      | Some additionalLabels => additionalLabels env1
      | None => ([], env1)
      end in
    Some (series ++ [prompb.TimeSeries.mk (prompb.Label.mk MetricName n :: more) []
                       (if decide (i < nExemplars)
                        then [prompb.Exemplar.mk traceLabels (float64 i) tsMillis]
                        else [])
                       [HistogramToHistogramProto tsMillis (generateTestHistogram i)]],
          env2).
Proof.
  unfold buildSeries. destruct (name env) as [n env1].
  destruct additionalLabels as [f|]; [now destruct (f env1)|reflexivity].
Qed.

Lemma buildSeries_loop_labels tsMillis nExemplars name additionalLabels (count : nat) :
  forall i acc env,
  exists new,
    for_range i count (buildSeries tsMillis nExemplars name additionalLabels)
      (acc, env)
    = Some (acc ++ new, (callbackLabels name additionalLabels count env).2)
    /\ prompb.TimeSeries.Labels <$> new
       = (callbackLabels name additionalLabels count env).1.
Proof.
  induction count as [|count IH]; intros i acc env.
  - exists []. now rewrite app_nil_r.
  - cbn [for_range callbackLabels]. rewrite buildSeries_eq.
    destruct (name env) as [n env1].
    destruct (match additionalLabels with
              | Some additionalLabels => additionalLabels env1
              | None => ([], env1)
              end) as [more env2].
    cbn [mbind option_bind].
    match goal with
    | |- context [for_range (i + 1) count _ (acc ++ [?x], env2)] =>
        destruct (IH (i + 1) (acc ++ [x]) env2) as (new & -> & Hnew);
        exists (x :: new)
    end.
    destruct (callbackLabels name additionalLabels count env2) as [rest env3].
    cbn [fst snd] in *. rewrite <- app_assoc, fmap_cons, Hnew. now split.
Qed.

(** X5. The bulk generator runs its callbacks in rounds, one round per
    series in index order, a round being one call of [name] followed by one
    call of [additionalLabels]: the label lists of the series are those the
    rounds give (the metric name first, then the additional labels as
    returned), and the captured state returned is the state after the last
    round. *)
Theorem GenerateNHistogramSeries_callback_rounds
    nSeries nExemplars name ts additionalLabels env :
  exists series vector,
    GenerateNHistogramSeries nSeries nExemplars name ts additionalLabels env
    = Some (series, vector,
            (callbackLabels name additionalLabels (Z.to_nat nSeries) env).2)
    /\ prompb.TimeSeries.Labels <$> series
       = (callbackLabels name additionalLabels (Z.to_nat nSeries) env).1.
Proof.
  destruct (GenerateNHistogramSeries_spec nSeries nExemplars name ts
              additionalLabels env)
    as (series & vector & env' & Hrun & Hloop & _).
  destruct (buildSeries_loop_labels (TimeToMilliseconds ts) nExemplars name
              additionalLabels (Z.to_nat nSeries) 0 [] env) as (new & Hloop' & Hnew).
  rewrite Hloop in Hloop'. injection Hloop' as -> ->.
  exists new, vector. now split.
Qed.

(** Without a label callback a round gives the metric-name label alone. *)
Lemma callbackLabels_nil {E : Type} (name : E -> string * E) (count : nat) (env : E) :
  Forall (fun lbls => exists n, lbls = [prompb.Label.mk MetricName n])
    (callbackLabels name None count env).1.
Proof.
  revert env. induction count as [|count IH]; intros env; cbn [callbackLabels].
  - apply Forall_nil_2.
  - destruct (name env) as [n env1]. specialize (IH env1).
    destruct (callbackLabels name None count env1) as [rest env2].
    apply Forall_cons_2; [now exists n|exact IH].
Qed.

(** X6. With a [nil] label callback every series carries the metric-name
    label and no other, the metric of its expected sample is that one
    binding, and the two label sets are the same: the bulk generator then
    needs no condition on the names. *)
Theorem GenerateNHistogramSeries_nil_labels nSeries nExemplars name ts env :
  exists series vector env',
    GenerateNHistogramSeries nSeries nExemplars name ts None env
    = Some (series, vector, env')
    /\ forall i, 0 <= i < nSeries ->
         exists s e n,
           series !! Z.to_nat i = Some s
           /\ vector !! Z.to_nat i = Some e
           /\ prompb.TimeSeries.Labels s = [prompb.Label.mk MetricName n]
           /\ model.Sample.Metric e = {[MetricName := n]}
           /\ sameLabelSet (prompb.TimeSeries.Labels s) (model.Sample.Metric e).
Proof.
  destruct (GenerateNHistogramSeries_spec nSeries nExemplars name ts None env)
    as (series & vector & env' & Hrun & Hloop & Hlen & Hlen2 & _ & Hshape2).
  destruct (buildSeries_loop_labels (TimeToMilliseconds ts) nExemplars name None
              (Z.to_nat nSeries) 0 [] env) as (series' & Hloop' & Hlabels).
  rewrite Hloop in Hloop'. injection Hloop' as Hseries _.
  change ([] ++ series') with series' in Hseries. subst series'.
  exists series, vector, env'. split; [assumption|].
  intros i Hi.
  destruct (lookup_lt_is_Some_2 series (Z.to_nat i) ltac:(lia)) as [s Hs].
  destruct (lookup_lt_is_Some_2 vector (Z.to_nat i) ltac:(lia)) as [e He].
  destruct (Hshape2 _ _ He) as (s' & Hs' & ->).
  assert (s' = s) as -> by congruence.
  pose proof (callbackLabels_nil name (Z.to_nat nSeries) env) as Hall.
  rewrite <- Hlabels, Forall_lookup in Hall.
  destruct (Hall (Z.to_nat i) (prompb.TimeSeries.Labels s)) as [n Hn];
    [now rewrite list_lookup_fmap, Hs|].
  eexists s, _, n. do 3 (split; [eassumption|]).
  cbn [sampleOfSeries model.Sample.Metric]. rewrite Hn. split; [reflexivity|].
  apply setLabels_sameLabelSet_iff.
  intros l1 l2 H1 H2 _.
  apply list_elem_of_singleton in H1, H2. now subst.
Qed.

(** *** The number of exemplars of the bulk generator *)

Lemma exemplarCount_indexed tsMillis nExemplars (series : list prompb.TimeSeries.t) :
  (forall (k : nat) s, series !! k = Some s ->
                       seriesOfIndex tsMillis nExemplars (Z.of_nat k) s) ->
  exemplarCount series = Z.to_nat (Z.min (Z.of_nat (length series)) nExemplars).
Proof.
  induction series as [|x series IH] using rev_ind; intros Hshape.
  - cbn. lia.
  - unfold exemplarCount in *. rewrite fmap_app, sum_list_with_app, IH.
    + destruct (Hshape (length series) x) as (_ & _ & Hex & _).
      { now rewrite lookup_app_r, Nat.sub_diag by lia. }
      cbn [fmap list_fmap sum_list sum_list_with compose]. rewrite Hex, length_app.
      cbn [length]. destruct (decide (Z.of_nat (length series) < nExemplars));
        cbn [length]; unfold id; lia.
    + intros k s Hk. apply Hshape. now apply lookup_app_l_Some.
Qed.

(** X7. The series of the bulk generator carry [min(N, M)] exemplars in all
    ([N] the series count, [M] the exemplar count), and none when either
    count is not positive: an exemplar count above the series count adds
    nothing. *)
Theorem GenerateNHistogramSeries_exemplar_count
    nSeries nExemplars name ts additionalLabels env :
  exists series vector env',
    GenerateNHistogramSeries nSeries nExemplars name ts additionalLabels env
    = Some (series, vector, env')
    /\ exemplarCount series = Z.to_nat (Z.min nSeries nExemplars).
Proof.
  destruct (GenerateNHistogramSeries_spec nSeries nExemplars name ts
              additionalLabels env)
    as (series & vector & env' & Hrun & _ & Hlen & _ & Hshape & _).
  exists series, vector, env'. split; [assumption|].
  rewrite (exemplarCount_indexed _ _ _ Hshape), Hlen. lia.
Qed.

End Generators.

(** ** The generators on concrete inputs *)

Lemma exampleIntn_range (n r : Z) : 0 < n -> 0 <= (exampleIntn n r).1 < n.
Proof. intros Hn. cbn [exampleIntn fst]. now apply Z.mod_pos_bound. Qed.

(** The scenario of a counter-integer series named [test_metric] at
    2024-01-01T00:00:00Z whose call draws the seed 42. *)
Lemma histogram_value_correspondence_witness :
  exists s h e eh st p ph,
    GenerateHistogramSeries Z id Z exampleIntn exampleScheme
      "test_metric" 1704067200000 [] 42
    = ([s], [e], [st], 1250496027)
    /\ prompb.TimeSeries.Histograms s = [h]
    /\ model.Sample.Histogram e = Some eh
    /\ model.SampleStream.Histograms st = [p]
    /\ model.SampleHistogramPair.Histogram p = Some ph
    /\ prompb.Histogram.Stat h = model.SampleHistogram.Stat eh
    /\ prompb.Histogram.Stat h = model.SampleHistogram.Stat ph
    /\ prompb.Histogram.Stat h = exampleScheme 42.
Proof.
  apply (List.Forall_inv
           (histogram_value_correspondence Z id Z exampleIntn exampleScheme)
           "test_metric" 1704067200000 [] 42 42 1250496027).
  reflexivity.
Defined.

Lemma wrapper_exemplar_witness :
  exists v rnd' s e st,
    exampleIntn 1000 4242 = (v, rnd')
    /\ 0 <= v <= 999
    /\ generateHistogramSeriesWrapper Z id Z exampleIntn exampleScheme
         (fun tsMillis value =>
            HistogramToHistogramProto tsMillis (generateTestHistogram exampleScheme value))
         "test_metric" 1700 [] 4242
       = ([s], [e], [st], rnd')
    /\ prompb.TimeSeries.Exemplars s
       = [prompb.Exemplar.mk [prompb.Label.mk "trace_id" "1234"] (float64 v) 1700]
    /\ e = model.Sample.mk (model.Sample.Metric e) 0%float 1700
             (Some (generateTestSampleHistogram exampleScheme v))
    /\ st = model.SampleStream.mk (model.Sample.Metric e) []
              [model.SampleHistogramPair.mk 1700
                 (Some (generateTestSampleHistogram exampleScheme v))].
Proof.
  apply (wrapper_exemplar Z id Z exampleIntn exampleIntn_range exampleScheme).
Defined.

(** A label list whose one repeated name has the same value both times. *)
Lemma wrapper_label_fidelity_witness :
  exists s e st,
    (generateHistogramSeriesWrapper Z id Z exampleIntn exampleScheme
       (fun tsMillis value =>
          HistogramToHistogramProto tsMillis (generateTestHistogram exampleScheme value))
       "test_metric" 1700
       [prompb.Label.mk "job" "test"; prompb.Label.mk "zone" "a";
        prompb.Label.mk "job" "test"] 4242).1
    = ([s], [e], [st])
    /\ prompb.TimeSeries.Labels s
       = [prompb.Label.mk MetricName "test_metric";
          prompb.Label.mk "job" "test"; prompb.Label.mk "zone" "a";
          prompb.Label.mk "job" "test"]
    /\ sameLabelSet (prompb.TimeSeries.Labels s) (model.Sample.Metric e)
    /\ sameLabelSet (prompb.TimeSeries.Labels s) (model.SampleStream.Metric st)
    /\ model.Sample.Metric e !! MetricName = Some "test_metric".
Proof.
  apply wrapper_label_fidelity.
  intros l1 l2 H1 H2.
  repeat (apply elem_of_cons in H1 as [->|H1]); [..|now apply elem_of_nil in H1];
    (repeat (apply elem_of_cons in H2 as [->|H2]); [..|now apply elem_of_nil in H2]);
    vm_compute; intros Hname; (reflexivity || discriminate Hname).
Defined.

(** Two additional labels of one name: the series keeps both, the metric of
    the expected entries only the second. *)
Lemma wrapper_label_fidelity_counterexample :
  exists s e st,
    (GenerateHistogramSeries Z id Z exampleIntn exampleScheme
       "m" 1700 [prompb.Label.mk "a" "1"; prompb.Label.mk "a" "2"] 4242).1
    = ([s], [e], [st])
    /\ prompb.TimeSeries.Labels s
       = [prompb.Label.mk "__name__" "m"; prompb.Label.mk "a" "1";
          prompb.Label.mk "a" "2"]
    /\ model.Sample.Metric e = <["a" := "2"]> (<["__name__" := "m"]> ∅)
    /\ model.SampleStream.Metric st = model.Sample.Metric e
    /\ ~ sameLabelSet (prompb.TimeSeries.Labels s) (model.Sample.Metric e)
    /\ ~ sameLabelSet (prompb.TimeSeries.Labels s) (model.SampleStream.Metric st).
Proof.
  do 3 eexists. split; [vm_compute; reflexivity|].
  split; [reflexivity|]. split; [vm_compute; reflexivity|].
  split; [reflexivity|].
  assert (Hno : ~ sameLabelSet
                    [prompb.Label.mk "__name__" "m"; prompb.Label.mk "a" "1";
                     prompb.Label.mk "a" "2"]
                    (setLabels ∅ [prompb.Label.mk "__name__" "m";
                                  prompb.Label.mk "a" "1"; prompb.Label.mk "a" "2"])).
  { intros Hsame.
    assert (Hin : prompb.Label.mk "a" "1"
                  ∈ [prompb.Label.mk "__name__" "m"; prompb.Label.mk "a" "1";
                     prompb.Label.mk "a" "2"])
      by (apply elem_of_cons; right; apply elem_of_cons; now left).
    apply Hsame in Hin. vm_compute in Hin. discriminate Hin. }
  split; exact Hno.
Qed.

(** The series count 50 and exemplar count 10 of the index-alignment
    property, at the two indices next to the exemplar bound. *)
Lemma GenerateNHistogramSeries_index_aligned_witness :
  exists series vector env' s9 e9 s10 e10,
    GenerateNHistogramSeries Z id exampleScheme nat 50 10 exampleName 1700
      (Some exampleLabels) 0%nat
    = Some (series, vector, env')
    /\ length series = 50%nat
    /\ length vector = 50%nat
    /\ series !! 9%nat = Some s9 /\ vector !! 9%nat = Some e9
    /\ series !! 10%nat = Some s10 /\ vector !! 10%nat = Some e10
    /\ prompb.TimeSeries.Exemplars s9
       = [prompb.Exemplar.mk [prompb.Label.mk "trace_id" "1234"] (float64 9) 1700]
    /\ prompb.TimeSeries.Exemplars s10 = []
    /\ model.Sample.Histogram e9 = Some (generateTestSampleHistogram exampleScheme 9)
    /\ model.Sample.Histogram e10 = Some (generateTestSampleHistogram exampleScheme 10).
Proof.
  destruct (GenerateNHistogramSeries_index_aligned Z id exampleScheme nat 50 10
              exampleName 1700 (Some exampleLabels) 0%nat)
    as (series & vector & env' & Hrun & Hlen & Hlen' & Hi).
  destruct (Hi 9 ltac:(lia)) as (s9 & e9 & Hs9 & He9 & Hx9 & _ & Hh9 & _).
  destruct (Hi 10 ltac:(lia)) as (s10 & e10 & Hs10 & He10 & Hx10 & _ & Hh10 & _).
  exists series, vector, env', s9, e9, s10, e10.
  repeat split; assumption.
Defined.

Lemma GenerateNHistogramSeries_labels_derived_witness :
  exists series vector env' s e,
    GenerateNHistogramSeries Z id exampleScheme nat 3 1 exampleName 1700
      (Some exampleLabels) 0%nat
    = Some (series, vector, env')
    /\ series !! 2%nat = Some s /\ vector !! 2%nat = Some e
    /\ prompb.TimeSeries.Labels s
       = [prompb.Label.mk "__name__" "series_2"; prompb.Label.mk "job" "test";
          prompb.Label.mk "zone" "a"]
    /\ model.Sample.Metric e = setLabels ∅ (prompb.TimeSeries.Labels s)
    /\ sameLabelSet (prompb.TimeSeries.Labels s) (model.Sample.Metric e).
Proof.
  destruct (GenerateNHistogramSeries_labels_derived Z id exampleScheme nat 3 1
              exampleName 1700 (Some exampleLabels) 0%nat)
    as (series & vector & env' & Hrun & _ & Hi).
  destruct (Hi 2 ltac:(lia)) as (s & e & Hs & He & Hm & _ & _ & _ & Hsame).
  assert (Hl : prompb.TimeSeries.Labels s
               = [prompb.Label.mk "__name__" "series_2"; prompb.Label.mk "job" "test";
                  prompb.Label.mk "zone" "a"]).
  { pose proof Hrun as Hval. vm_compute in Hval.
    injection Hval as Hseries _ _. rewrite <- Hseries in Hs.
    injection Hs as <-. reflexivity. }
  exists series, vector, env', s, e.
  do 5 (split; [assumption|]).
  apply Hsame. rewrite Hl. apply NoDup_consistentLabels.
  apply (bool_decide_unpack _). vm_compute. exact I.
Defined.

(** A label callback that returns one name twice: series 0 keeps both
    labels, the metric of expected sample 0 only the second. *)
Lemma GenerateNHistogramSeries_labels_counterexample :
  exists s e env',
    GenerateNHistogramSeries Z id exampleScheme nat 1 0 exampleName 1700
      (Some exampleDuplicateLabels) 0%nat
    = Some ([s], [e], env')
    /\ prompb.TimeSeries.Labels s
       = [prompb.Label.mk "__name__" "series_0"; prompb.Label.mk "a" "1";
          prompb.Label.mk "a" "2"]
    /\ model.Sample.Metric e = <["a" := "2"]> (<["__name__" := "series_0"]> ∅)
    /\ ~ sameLabelSet (prompb.TimeSeries.Labels s) (model.Sample.Metric e).
Proof.
  do 3 eexists. split; [vm_compute; reflexivity|].
  split; [reflexivity|]. split; [vm_compute; reflexivity|].
  intros Hsame.
  assert (Hin : prompb.Label.mk "a" "1"
                ∈ [prompb.Label.mk "__name__" "series_0"; prompb.Label.mk "a" "1";
                   prompb.Label.mk "a" "2"])
    by (apply elem_of_cons; right; apply elem_of_cons; now left).
  apply Hsame in Hin. vm_compute in Hin. discriminate Hin.
Qed.

Lemma GenerateNHistogramSeries_nonpositive_witness :
  GenerateNHistogramSeries Z id exampleScheme nat (-3) 10 exampleName 1700
    (Some exampleLabels) 7%nat
  = Some ([], [], 7%nat).
Proof.
  apply GenerateNHistogramSeries_nonpositive. lia.
Defined.

(** ** Selector: properties *)

Lemma rem5_cases (i : Z) :
  0 <= i ->
  Z.rem i 5 = 0 \/ Z.rem i 5 = 1 \/ Z.rem i 5 = 2 \/ Z.rem i 5 = 3 \/ Z.rem i 5 = 4.
Proof.
  intros Hi. pose proof (Z.rem_bound_pos i 5 Hi ltac:(lia)). lia.
Qed.

Lemma rem5_neg_cases (i : Z) :
  i < 0 -> Z.rem i 5 <> 0 ->
  Z.rem i 5 = -1 \/ Z.rem i 5 = -2 \/ Z.rem i 5 = -3 \/ Z.rem i 5 = -4.
Proof.
  intros Hi Hnz. pose proof (Z.rem_bound_pos_neg i 5 ltac:(lia) ltac:(lia)). lia.
Qed.

Lemma generateAlternatingSeries_nat (n : nat) :
  generateAlternatingSeries (Z.of_nat n) = seriesCycle !! (n mod 5)%nat.
Proof.
  unfold generateAlternatingSeries.
  rewrite Z.rem_mod_nonneg by lia.
  change 5 with (Z.of_nat 5). rewrite <- Nat2Z.inj_mod.
  pose proof (Nat.mod_upper_bound n 5 ltac:(lia)) as Hlt.
  destruct (n mod 5)%nat as [|[|[|[|[|k]]]]]; simpl; try reflexivity; lia.
Qed.

Lemma generateAlternatingSeries_rem (i : Z) :
  generateAlternatingSeries i
  = if decide (0 <= Z.rem i 5) then seriesCycle !! Z.to_nat (Z.rem i 5) else None.
Proof.
  unfold generateAlternatingSeries.
  destruct (Z_lt_le_dec i 0) as [Hneg|Hpos].
  - destruct (decide (Z.rem i 5 = 0)) as [->|Hnz]; [reflexivity|].
    destruct (rem5_neg_cases i Hneg Hnz) as [->|[->|[->| ->]]]; reflexivity.
  - destruct (rem5_cases i Hpos) as [->|[->|[->|[->| ->]]]]; reflexivity.
Qed.

(** C4, as amended. For every index [i >= 0] the selector chooses by
    [i mod 5]: it gives entry [i mod 5] of the cycle float, counter-integer,
    counter-float, gauge-integer, gauge-float, and so the same as for
    [i + 5]; the indices 0..9 give the cycle twice. *)
Theorem generateAlternatingSeries_cyclic (i : Z) :
  0 <= i ->
  generateAlternatingSeries i = seriesCycle !! Z.to_nat (i `mod` 5)
  /\ generateAlternatingSeries (i + 5) = generateAlternatingSeries i
  /\ map generateAlternatingSeries [0; 1; 2; 3; 4; 5; 6; 7; 8; 9]
     = map Some (seriesCycle ++ seriesCycle).
Proof.
  intros Hi.
  assert (Hsel : forall j, 0 <= j ->
             generateAlternatingSeries j = seriesCycle !! Z.to_nat (j `mod` 5)).
  { intros j Hj. rewrite <- (Z2Nat.id j) at 1 by exact Hj.
    rewrite generateAlternatingSeries_nat. f_equal.
    change 5%nat with (Z.to_nat 5). rewrite <- Z2Nat.inj_mod by lia. reflexivity. }
  split; [now apply Hsel|]. split; [|reflexivity].
  rewrite !Hsel by lia. do 2 f_equal.
  replace (i + 5) with (i + 1 * 5) by lia. apply Z.mod_add. lia.
Qed.

Lemma generateAlternatingSeries_cyclic_witness :
  generateAlternatingSeries 7 = seriesCycle !! Z.to_nat (7 `mod` 5)
  /\ generateAlternatingSeries (7 + 5) = generateAlternatingSeries 7
  /\ map generateAlternatingSeries [0; 1; 2; 3; 4; 5; 6; 7; 8; 9]
     = map Some (seriesCycle ++ seriesCycle).
Proof.
  apply (generateAlternatingSeries_cyclic 7). lia.
Defined.

(** At the index -1 the selector gives the [nil] function value, which is
    none of the five generators, neither entry [(-1) mod 5] of the cycle nor
    what it gives five indices later. *)
Lemma generateAlternatingSeries_cyclic_counterexample :
  generateAlternatingSeries (-1) = None
  /\ seriesCycle !! Z.to_nat ((-1) `mod` 5)
     = Some GenerateGaugeFloatHistogramSeriesRef
  /\ generateAlternatingSeries (-1 + 5) = Some GenerateGaugeFloatHistogramSeriesRef
  /\ generateAlternatingSeries (-1) <> seriesCycle !! Z.to_nat ((-1) `mod` 5)
  /\ generateAlternatingSeries (-1 + 5) <> generateAlternatingSeries (-1).
Proof.
  repeat split; try reflexivity; vm_compute; discriminate.
Qed.

(** C9. A non-negative index always selects one of the five generators (the
    [default] branch is not reached); a negative index whose truncated
    remainder by 5 is not zero selects the [nil] function value. *)
Theorem generateAlternatingSeries_default_branch (i : Z) :
  (0 <= i ->
   exists f, generateAlternatingSeries i = Some f /\ f ∈ seriesCycle)
  /\ (i < 0 -> Z.rem i 5 <> 0 -> generateAlternatingSeries i = None).
Proof.
  unfold generateAlternatingSeries, seriesCycle. split.
  - intros Hi.
    destruct (rem5_cases i Hi) as [->|[->|[->|[->| ->]]]];
      eexists; (split; [reflexivity|]); set_solver.
  - intros Hi Hnz.
    destruct (rem5_neg_cases i Hi Hnz) as [->|[->|[->| ->]]]; reflexivity.
Qed.

Lemma generateAlternatingSeries_default_branch_witness :
  (exists f, generateAlternatingSeries 7 = Some f /\ f ∈ seriesCycle)
  /\ generateAlternatingSeries (-7) = None.
Proof.
  split.
  - apply (proj1 (generateAlternatingSeries_default_branch 7)). lia.
  - apply (proj2 (generateAlternatingSeries_default_branch (-7))).
    + lia.
    + vm_compute. discriminate.
Defined.

(** ** TLS flags: properties *)

Lemma string_app_length (s1 s2 : string) :
  String.length (s1 +:+ s2) = (String.length s1 + String.length s2)%nat.
Proof.
  induction s1 as [|c s1 IH]; [reflexivity|].
  change (String c s1 +:+ s2) with (String c (s1 +:+ s2)). cbn. now rewrite IH.
Qed.

Lemma string_app_inj_r (p1 p2 s : string) : p1 +:+ s = p2 +:+ s -> p1 = p2.
Proof.
  revert p2. induction p1 as [|c p1 IH]; intros [|d p2] Heq.
  - reflexivity.
  - apply (f_equal String.length) in Heq.
    rewrite !string_app_length in Heq. cbn in Heq. lia.
  - apply (f_equal String.length) in Heq.
    rewrite !string_app_length in Heq. cbn in Heq. lia.
  - change (String c (p1 +:+ s) = String d (p2 +:+ s)) in Heq.
    injection Heq as -> Heq. f_equal. now apply IH.
Qed.

Lemma hasSuffix_refl (s : string) : hasSuffix s s = true.
Proof. destruct s; cbn; now rewrite decide_True. Qed.

Lemma hasSuffix_app (p s : string) : hasSuffix s (p +:+ s) = true.
Proof.
  induction p as [|c p IH]; [apply hasSuffix_refl|].
  change (String c p +:+ s) with (String c (p +:+ s)). cbn [hasSuffix].
  now destruct (decide (s = String c (p +:+ s))).
Qed.

(** Two strings with a common end: one of the two ends is an end of the
    other. *)
Lemma app_eq_hasSuffix (q1 s1 q2 s2 : string) :
  q1 +:+ s1 = q2 +:+ s2 -> hasSuffix s1 s2 = true \/ hasSuffix s2 s1 = true.
Proof.
  revert q2. induction q1 as [|c q1 IH]; intros q2 Heq.
  - right. change ("" +:+ s1) with s1 in Heq. rewrite Heq. apply hasSuffix_app.
  - destruct q2 as [|d q2].
    + left. change ("" +:+ s2) with s2 in Heq. rewrite <- Heq. apply hasSuffix_app.
    + change (String c (q1 +:+ s1) = String d (q2 +:+ s2)) in Heq.
      injection Heq as _ Heq. now apply (IH q2).
Qed.

(** No ending of a client flag name is an end of another one, or of a server
    flag name. *)
Lemma tlsFlagSuffixes_apart :
  Forall (fun s1 => Forall (fun s2 => hasSuffix s1 s2 = true -> s1 = s2)
                      tlsFlagSuffixes) tlsFlagSuffixes.
Proof. apply (bool_decide_unpack _). vm_compute. exact I. Qed.

Lemma tlsFlagSuffixes_server :
  Forall (fun s => Forall (fun k => hasSuffix s k = false)
                     (serverGRPCFlagNames ++ serverHTTPFlagNames)) tlsFlagSuffixes.
Proof. apply (bool_decide_unpack _). vm_compute. exact I. Qed.

Lemma serverFlagNames_apart :
  Forall (fun k1 => Forall (fun k2 => k1 <> k2) serverHTTPFlagNames)
    serverGRPCFlagNames.
Proof. apply (bool_decide_unpack _). vm_compute. exact I. Qed.

Section TLSFlags.

Context `{Filepath, TLSFiles}.

Lemma tls_key_ne (p s1 s2 : string) : s1 <> s2 -> p +:+ s1 <> p +:+ s2.
Proof. intros Hne Heq. now apply String.app_inj in Heq. Qed.

Ltac in_list :=
  repeat first [apply list_elem_of_here | apply list_elem_of_further].

Lemma getTLSFlagsWithPrefix_lookup_Some prefix servername http k v :
  getTLSFlagsWithPrefix prefix servername http !! k = Some v ->
  exists suffix, suffix ∈ tlsFlagSuffixes /\ k = ("-" +:+ prefix) +:+ suffix.
Proof.
  unfold getTLSFlagsWithPrefix, tlsFlagSuffixes. intros Hk.
  destruct http; cbn [negb] in Hk;
    repeat (apply lookup_insert_Some in Hk as [[<- _]|[_ Hk]];
            [eexists; split; [|reflexivity]; in_list|]);
    now rewrite lookup_empty in Hk.
Qed.

Lemma getServerTLSFlags_lookup_Some k v :
  getServerTLSFlags !! k = Some v -> k ∈ serverGRPCFlagNames.
Proof.
  unfold getServerTLSFlags, serverGRPCFlagNames. intros Hk.
  repeat (apply lookup_insert_Some in Hk as [[<- _]|[_ Hk]]; [in_list|]).
  now rewrite lookup_empty in Hk.
Qed.

Lemma getServerHTTPTLSFlags_lookup_Some k v :
  getServerHTTPTLSFlags !! k = Some v -> k ∈ serverHTTPFlagNames.
Proof.
  unfold getServerHTTPTLSFlags, serverHTTPFlagNames. intros Hk.
  repeat (apply lookup_insert_Some in Hk as [[<- _]|[_ Hk]]; [in_list|]).
  now rewrite lookup_empty in Hk.
Qed.

(** X8. Whatever the prefix, the flag names that [getTLSFlagsWithPrefix]
    builds do not collide: the set holds the certificate, key and CA paths of
    the client and the server name, each under its own name, and the flag
    [tls-enabled], with value [true], exactly when [http] is false; so it has
    five entries, or four for [http]. [getClientTLSFlagsWithPrefix] gives the
    five entries with the server name [ingester.client]. *)
Theorem getTLSFlagsWithPrefix_entries (prefix servername : string) (http : bool) :
  let flags := getTLSFlagsWithPrefix prefix servername http in
  flags !! (("-" +:+ prefix) +:+ ".tls-cert-path")
  = Some (filepath_Join [ContainerSharedDir; clientCertFile])
  /\ flags !! (("-" +:+ prefix) +:+ ".tls-key-path")
     = Some (filepath_Join [ContainerSharedDir; clientKeyFile])
  /\ flags !! (("-" +:+ prefix) +:+ ".tls-ca-path")
     = Some (filepath_Join [ContainerSharedDir; caCertFile])
  /\ flags !! (("-" +:+ prefix) +:+ ".tls-server-name") = Some servername
  /\ flags !! (("-" +:+ prefix) +:+ ".tls-enabled")
     = (if http then None else Some "true")
  /\ size flags = (if http then 4%nat else 5%nat)
  /\ getClientTLSFlagsWithPrefix prefix
     = getTLSFlagsWithPrefix prefix "ingester.client" false.
Proof.
  unfold getTLSFlagsWithPrefix.
  destruct http; cbn [negb];
    repeat split;
    rewrite ?map_size_insert;
    repeat first
      [ rewrite lookup_insert_eq
      | rewrite lookup_insert_ne by (apply tls_key_ne; discriminate)
      | rewrite lookup_empty ];
    reflexivity.
Qed.

(** X9. The server flag set for gRPC, the server flag set for HTTP and a
    client flag set of any prefix have no flag name in common, so that no
    entry is lost when they are merged. *)
Theorem tls_flag_sets_disjoint (prefix servername : string) (http : bool) :
  getServerTLSFlags ##ₘ getServerHTTPTLSFlags
  /\ getServerTLSFlags ##ₘ getTLSFlagsWithPrefix prefix servername http
  /\ getServerHTTPTLSFlags ##ₘ getTLSFlagsWithPrefix prefix servername http.
Proof.
  assert (Hclient : forall k w,
             k ∈ serverGRPCFlagNames ++ serverHTTPFlagNames ->
             getTLSFlagsWithPrefix prefix servername http !! k = Some w -> False).
  { intros k w Hk Hw.
    apply getTLSFlagsWithPrefix_lookup_Some in Hw as (suffix & Hsuffix & ->).
    pose proof tlsFlagSuffixes_server as Hall.
    rewrite Forall_forall in Hall. specialize (Hall _ Hsuffix).
    rewrite Forall_forall in Hall. specialize (Hall _ Hk).
    rewrite hasSuffix_app in Hall. discriminate. }
  split; [|split]; apply map_disjoint_spec; intros k x y Hx Hy.
  - apply getServerTLSFlags_lookup_Some in Hx.
    apply getServerHTTPTLSFlags_lookup_Some in Hy.
    pose proof serverFlagNames_apart as Hall.
    rewrite Forall_forall in Hall. specialize (Hall _ Hx).
    rewrite Forall_forall in Hall. now apply (Hall _ Hy).
  - apply getServerTLSFlags_lookup_Some in Hx.
    apply (Hclient k y); [|exact Hy]. apply elem_of_app. now left.
  - apply getServerHTTPTLSFlags_lookup_Some in Hx.
    apply (Hclient k y); [|exact Hy]. apply elem_of_app. now right.
Qed.

(** X10. Client flag sets of two different prefixes have no flag name in
    common, whatever the prefixes are. *)
Theorem getTLSFlagsWithPrefix_prefixes_disjoint
    (prefix1 servername1 : string) (http1 : bool)
    (prefix2 servername2 : string) (http2 : bool) :
  prefix1 <> prefix2 ->
  getTLSFlagsWithPrefix prefix1 servername1 http1
  ##ₘ getTLSFlagsWithPrefix prefix2 servername2 http2.
Proof.
  intros Hne. apply map_disjoint_spec. intros k x y Hx Hy.
  apply getTLSFlagsWithPrefix_lookup_Some in Hx as (s1 & Hs1 & ->).
  apply getTLSFlagsWithPrefix_lookup_Some in Hy as (s2 & Hs2 & Heq).
  pose proof tlsFlagSuffixes_apart as Hall. rewrite Forall_forall in Hall.
  assert (s1 = s2) as ->.
  { destruct (app_eq_hasSuffix _ _ _ _ Heq) as [Hsuf|Hsuf].
    - pose proof (Hall _ Hs1) as Hall1. rewrite Forall_forall in Hall1.
      now apply Hall1.
    - pose proof (Hall _ Hs2) as Hall2. rewrite Forall_forall in Hall2.
      symmetry. now apply Hall2. }
  apply string_app_inj_r, String.app_inj in Heq. now apply Hne.
Qed.

End TLSFlags.

(** ** The project directory and the shared directory: properties *)

Section Files.

Context `{Filepath, OS}.

Lemma string_app_nonempty (s1 s2 : string) : s2 <> "" -> s1 +:+ s2 <> "".
Proof.
  intros Hne Heq. apply (f_equal String.length) in Heq.
  rewrite string_app_length in Heq. destruct s2; [now apply Hne|]. cbn in Heq. lia.
Qed.

(** X11. A non-empty [MIMIR_CHECKOUT_DIR] is returned as it is, and git is
    not run (the state is left as it was). The directory returned is empty
    in one case only: the variable is empty or not set, git succeeds, and its
    output is empty once trimmed; the [GOPATH] fallback is never empty, also
    when [GOPATH] is not set. *)
Theorem getMimirProjectDir_result (w : World) :
  (Getenv "MIMIR_CHECKOUT_DIR" w <> "" ->
   getMimirProjectDir w = (Getenv "MIMIR_CHECKOUT_DIR" w, w))
  /\ ((getMimirProjectDir w).1 = "" ->
      Getenv "MIMIR_CHECKOUT_DIR" w = ""
      /\ exists out, (gitShowToplevel w).1 = inl out /\ TrimSpace out = "").
Proof.
  unfold getMimirProjectDir. split.
  - intros Hset. now rewrite decide_True.
  - destruct (decide (Getenv "MIMIR_CHECKOUT_DIR" w <> "")) as [Hset|Hunset].
    + intros Hempty. now destruct Hset.
    + apply dec_stable in Hunset.
      destruct (gitShowToplevel w) as [[out|err] w1]; cbn [fst]; intros Hempty.
      * split; [exact Hunset|]. now exists out.
      * now apply string_app_nonempty in Hempty.
Qed.

(** X12. When writing a file and reading it back gives what was written, a
    copy that succeeds leaves in the shared directory, under the joined
    destination path, the content read from the source file in the project
    directory. *)
Theorem copyFileToSharedDir_content (s : Scenario) (src dst : string) (w w' : World) :
  (forall path content w1 w2,
      WriteFile path content w1 = (None, w2) -> ReadFile path w2 = inl content) ->
  copyFileToSharedDir s src dst w = (None, w') ->
  exists content,
    ReadFile (filepath_Join [(getMimirProjectDir w).1; src]) (getMimirProjectDir w).2
    = inl content
    /\ ReadFile (filepath_Join [SharedDir s; dst]) w' = inl content.
Proof.
  intros Hlaw. unfold copyFileToSharedDir, writeFileToSharedDir.
  destruct (getMimirProjectDir w) as [dir w1]. cbn [fst snd].
  destruct (ReadFile (filepath_Join [dir; src]) w1) as [content|err]; [|discriminate].
  destruct (MkdirAll _ w1) as [[err|] w2]; [discriminate|].
  intros Hwrite. exists content. split; [reflexivity|]. now apply (Hlaw _ _ w2).
Qed.

(** X13. A copy whose source file cannot be read returns the read error
    wrapped with the message [unable to read local file] and the source
    name, and makes no directory and writes no file: the state is the one
    left by the search of the project directory. A write (and so a copy)
    whose directories cannot be made returns that error as it is and does
    not write the file. *)
Theorem copyFileToSharedDir_failure (s : Scenario) (src dst content : string)
    (w : World) :
  (forall err,
      ReadFile (filepath_Join [(getMimirProjectDir w).1; src]) (getMimirProjectDir w).2
      = inr err ->
      copyFileToSharedDir s src dst w
      = (Some (Wrapf err ("unable to read local file " +:+ src)),
         (getMimirProjectDir w).2))
  /\ (forall err w1,
         MkdirAll (filepath_Dir (filepath_Join [SharedDir s; dst])) w = (Some err, w1) ->
         writeFileToSharedDir s dst content w = (Some err, w1)).
Proof.
  split.
  - intros err Hread. unfold copyFileToSharedDir.
    destruct (getMimirProjectDir w) as [dir w1]. cbn [fst snd] in *. now rewrite Hread.
  - intros err w1 Hmk. unfold writeFileToSharedDir. now rewrite Hmk.
Qed.

End Files.

(** ** The query statistics middleware: properties *)

Section QueryStats.

Context `{QueryLang} {W : Type}.

Lemma foldl_countMatcher (c : Counters.t) (matchers : list Matcher) :
  foldl countMatcher c matchers
  = Counters.mk (Counters.nonAlignedQueries c)
      (Counters.regexpMatcherCount c + length matchers)
      (Counters.regexpMatcherOptimizedCount c
       + length (filter (fun m => IsRegexOptimized m = true) matchers)).
Proof.
  revert c. induction matchers as [|m matchers IH]; intros c.
  - destruct c. cbn. f_equal; lia.
  - cbn [foldl]. rewrite IH, filter_cons. unfold countMatcher.
    destruct (IsRegexOptimized m);
      [rewrite decide_True by reflexivity|rewrite decide_False by discriminate];
      cbn; f_equal; lia.
Qed.

Lemma foldl_selectors (c : Counters.t) (selectors : list (list Matcher)) :
  foldl (fun c matchers => foldl countMatcher c matchers) c selectors
  = foldl countMatcher c (concat selectors).
Proof.
  revert c. induction selectors as [|matchers selectors IH]; intros c; [reflexivity|].
  cbn [foldl concat]. now rewrite foldl_app, IH.
Qed.

(** The counters that [Do] passes on for a query that parses. *)
Lemma Do_parsed next ctx req c (w : W) expr :
  ParseExpr (GetQuery req) = inl expr ->
  Do next ctx req (c, w)
  = next ctx req
      (Counters.mk
         (Counters.nonAlignedQueries c
          + (if isRequestStepAligned req then 0 else 1))
         (Counters.regexpMatcherCount c + length (concat (ExtractSelectors expr)))
         (Counters.regexpMatcherOptimizedCount c
          + length (filter (fun m => IsRegexOptimized m = true)
                      (concat (ExtractSelectors expr)))),
       w).
Proof.
  intros Hparse. unfold Do. rewrite Hparse, foldl_selectors, foldl_countMatcher.
  destruct c, (isRequestStepAligned req); unfold incNonAlignedQueries; cbn;
    repeat f_equal; lia.
Qed.

Lemma Do_failed next ctx req c (w : W) msg :
  ParseExpr (GetQuery req) = inr msg ->
  Do next ctx req (c, w)
  = ((None, Some (apierror_New TypeBadData msg)),
     (Counters.mk
        (Counters.nonAlignedQueries c
         + (if isRequestStepAligned req then 0 else 1))
        (Counters.regexpMatcherCount c)
        (Counters.regexpMatcherOptimizedCount c),
      w)).
Proof.
  intros Hparse. unfold Do. rewrite Hparse.
  destruct c, (isRequestStepAligned req); unfold incNonAlignedQueries; cbn;
    repeat f_equal; lia.
Qed.

(** X14. A query that does not parse is answered with no response and a
    bad-data error that carries the message of the parser; the next handler
    is not called, whatever it is: the rest of the state and the two matcher
    counters are as before. The request has still been counted as not
    aligned when it is not. *)
Theorem Do_parse_error (next : Handler W) ctx req c (w : W) msg :
  ParseExpr (GetQuery req) = inr msg ->
  Do next ctx req (c, w)
  = ((None, Some (apierror_New TypeBadData msg)),
     (Counters.mk
        (Counters.nonAlignedQueries c
         + (if isRequestStepAligned req then 0 else 1))
        (Counters.regexpMatcherCount c)
        (Counters.regexpMatcherOptimizedCount c),
      w)).
Proof.
  intros Hparse. rewrite (Do_failed next ctx req c w msg Hparse). reflexivity.
Qed.

(** X15. For a query that parses, [Do] answers what the next handler
    answers, and hands it counters raised as follows: the matcher counter by
    the number of all matchers of all selectors of the query (of whatever
    kind), the optimized counter by the number of those that are optimized,
    the counter of requests that are not aligned by one when the request is
    not aligned. *)
Theorem Do_counts (next : Handler W) ctx req c (w : W) expr :
  ParseExpr (GetQuery req) = inl expr ->
  Do next ctx req (c, w)
  = next ctx req
      (Counters.mk
         (Counters.nonAlignedQueries c
          + (if isRequestStepAligned req then 0 else 1))
         (Counters.regexpMatcherCount c + length (concat (ExtractSelectors expr)))
         (Counters.regexpMatcherOptimizedCount c
          + length (filter (fun m => IsRegexOptimized m = true)
                      (concat (ExtractSelectors expr)))),
       w).
Proof.
  intros Hparse. rewrite (Do_parsed next ctx req c w expr Hparse). reflexivity.
Qed.

(** One request keeps the optimized counter at or below the matcher
    counter, when the next handler does. *)
Lemma Do_keeps_bound (next : Handler W) ctx req (st : Counters.t * W) :
  (forall ctx req (st : Counters.t * W),
      (Counters.regexpMatcherOptimizedCount st.1 <= Counters.regexpMatcherCount st.1)%nat ->
      (Counters.regexpMatcherOptimizedCount (next ctx req st).2.1
       <= Counters.regexpMatcherCount (next ctx req st).2.1)%nat) ->
  (Counters.regexpMatcherOptimizedCount st.1 <= Counters.regexpMatcherCount st.1)%nat ->
  (Counters.regexpMatcherOptimizedCount (Do next ctx req st).2.1
   <= Counters.regexpMatcherCount (Do next ctx req st).2.1)%nat.
Proof.
  intros Hnext Hst. destruct st as [c w]. cbn [fst] in Hst.
  destruct (ParseExpr (GetQuery req)) as [expr|msg] eqn:Hparse.
  - rewrite (Do_parsed _ _ _ _ _ _ Hparse). apply Hnext. cbn [fst Counters.regexpMatcherOptimizedCount Counters.regexpMatcherCount].
    pose proof (length_filter (fun m => IsRegexOptimized m = true)
                  (concat (ExtractSelectors expr))). lia.
  - rewrite (Do_failed _ _ _ _ _ _ Hparse). cbn. exact Hst.
Qed.

(** X16. The optimized counter never passes the matcher counter: when it is
    at or below it, and the next handler keeps it so, it is at or below it
    after the middleware has served any list of requests, parsed or not. *)
Theorem serveAll_keeps_bound (next : Handler W) ctx (reqs : list Request)
    (st : Counters.t * W) :
  (forall ctx req (st : Counters.t * W),
      (Counters.regexpMatcherOptimizedCount st.1 <= Counters.regexpMatcherCount st.1)%nat ->
      (Counters.regexpMatcherOptimizedCount (next ctx req st).2.1
       <= Counters.regexpMatcherCount (next ctx req st).2.1)%nat) ->
  (Counters.regexpMatcherOptimizedCount st.1 <= Counters.regexpMatcherCount st.1)%nat ->
  (Counters.regexpMatcherOptimizedCount (serveAll (Do next) ctx reqs st).1
   <= Counters.regexpMatcherCount (serveAll (Do next) ctx reqs st).1)%nat.
Proof.
  intros Hnext. revert st. unfold serveAll.
  induction reqs as [|req reqs IH]; intros st Hst; [exact Hst|].
  cbn [foldl]. apply IH. now apply Do_keeps_bound.
Qed.

Lemma countersLe_refl c : countersLe c c.
Proof. unfold countersLe. lia. Qed.

Lemma countersLe_trans c1 c2 c3 : countersLe c1 c2 -> countersLe c2 c3 -> countersLe c1 c3.
Proof. unfold countersLe. lia. Qed.

Lemma Do_grows (next : Handler W) ctx req (st : Counters.t * W) :
  (forall ctx req (st : Counters.t * W), countersLe st.1 (next ctx req st).2.1) ->
  countersLe st.1 (Do next ctx req st).2.1.
Proof.
  intros Hnext. destruct st as [c w].
  destruct (ParseExpr (GetQuery req)) as [expr|msg] eqn:Hparse.
  - rewrite (Do_parsed _ _ _ _ _ _ Hparse).
    eapply countersLe_trans; [|apply Hnext]. unfold countersLe. cbn. lia.
  - rewrite (Do_failed _ _ _ _ _ _ Hparse). unfold countersLe. cbn. lia.
Qed.

(** X17. No counter ever goes down: when the next handler lowers no
    counter, each counter after the middleware has served a list of requests
    is at least what it was before. *)
Theorem serveAll_grows (next : Handler W) ctx (reqs : list Request)
    (st : Counters.t * W) :
  (forall ctx req (st : Counters.t * W), countersLe st.1 (next ctx req st).2.1) ->
  countersLe st.1 (serveAll (Do next) ctx reqs st).1.
Proof.
  intros Hnext. revert st. unfold serveAll.
  induction reqs as [|req reqs IH]; intros st; [apply countersLe_refl|].
  cbn [foldl]. eapply countersLe_trans; [|apply IH]. now apply Do_grows.
Qed.

(** X19. Behind a next handler that leaves the counters alone, the
    counters after a list of requests are the counters before plus: the
    number of requests that are not aligned (whether they parse or not), the
    number of matchers of the requests that parse, and the number of
    optimized matchers among these. *)
Theorem serveAll_totals (next : Handler W) ctx (reqs : list Request)
    (st : Counters.t * W) :
  (forall ctx req (st : Counters.t * W), (next ctx req st).2.1 = st.1) ->
  (serveAll (Do next) ctx reqs st).1
  = Counters.mk
      (Counters.nonAlignedQueries st.1
       + length (filter (fun req => isRequestStepAligned req = false) reqs))
      (Counters.regexpMatcherCount st.1
       + sum_list (length ∘ requestMatchers <$> reqs))
      (Counters.regexpMatcherOptimizedCount st.1
       + sum_list (length ∘ filter (fun m => IsRegexOptimized m = true)
                     ∘ requestMatchers <$> reqs)).
Proof.
  intros Hnext. revert st. unfold serveAll.
  induction reqs as [|req reqs IH]; intros [c w].
  - destruct c. cbn. f_equal; lia.
  - cbn [foldl]. rewrite IH. rewrite filter_cons, !fmap_cons. cbn [sum_list_with compose].
    destruct (ParseExpr (GetQuery req)) as [expr|msg] eqn:Hparse.
    + assert (Hm : requestMatchers req = concat (ExtractSelectors expr))
        by (unfold requestMatchers; now rewrite Hparse).
      rewrite (Do_parsed _ _ _ _ _ _ Hparse), Hnext, Hm.
      destruct (isRequestStepAligned req);
        [rewrite decide_False by discriminate|rewrite decide_True by reflexivity];
        cbn; f_equal; lia.
    + assert (Hm : requestMatchers req = [])
        by (unfold requestMatchers; now rewrite Hparse).
      rewrite (Do_failed _ _ _ _ _ _ Hparse), Hm.
      destruct (isRequestStepAligned req);
        [rewrite decide_False by discriminate|rewrite decide_True by reflexivity];
        cbn; f_equal; lia.
Qed.

End QueryStats.

(** ** The further properties on concrete inputs *)

Lemma GenerateNHistogramSeries_metric_last_value_witness :
  exists series vector env' s e,
    GenerateNHistogramSeries Z id exampleScheme nat 1 0 exampleName 1700
      (Some exampleDuplicateLabels) 0%nat
    = Some (series, vector, env')
    /\ series !! 0%nat = Some s /\ vector !! 0%nat = Some e
    /\ model.Sample.Metric e !! "a" = lastValue "a" (prompb.TimeSeries.Labels s).
Proof.
  destruct (GenerateNHistogramSeries_metric_last_value Z id exampleScheme nat 1 0
              exampleName 1700 (Some exampleDuplicateLabels) 0%nat)
    as (series & vector & env' & Hrun & Hi).
  destruct (Hi 0 ltac:(lia)) as (s & e & Hs & He & Hlast).
  exists series, vector, env', s, e. do 3 (split; [assumption|]). apply Hlast.
Defined.

Lemma wrapper_exemplar_value_exact_witness :
  exists s x,
    (generateHistogramSeriesWrapper Z id Z exampleIntn exampleScheme
       (fun tsMillis value =>
          HistogramToHistogramProto tsMillis (generateTestHistogram exampleScheme value))
       "test_metric" 1700 [] 4242).1.1.1
    = [s]
    /\ prompb.TimeSeries.Exemplars s = [x]
    /\ floatIntValue (prompb.Exemplar.Value x) = Some (exampleIntn 1000 4242).1.
Proof.
  apply (wrapper_exemplar_value_exact Z id Z exampleIntn exampleIntn_range exampleScheme).
Defined.

Lemma GenerateNHistogramSeries_nil_labels_witness :
  exists series vector env' s e n,
    GenerateNHistogramSeries Z id exampleScheme nat 2 1 exampleName 1700 None 0%nat
    = Some (series, vector, env')
    /\ series !! 1%nat = Some s /\ vector !! 1%nat = Some e
    /\ prompb.TimeSeries.Labels s = [prompb.Label.mk MetricName n]
    /\ model.Sample.Metric e = {[MetricName := n]}
    /\ sameLabelSet (prompb.TimeSeries.Labels s) (model.Sample.Metric e).
Proof.
  destruct (GenerateNHistogramSeries_nil_labels Z id exampleScheme nat 2 1
              exampleName 1700 0%nat)
    as (series & vector & env' & Hrun & Hi).
  destruct (Hi 1 ltac:(lia)) as (s & e & n & Hs & He & Hl & Hm & Hsame).
  exists series, vector, env', s, e, n. repeat (split; [assumption|]). exact Hsame.
Defined.

Lemma getTLSFlagsWithPrefix_prefixes_disjoint_witness :
  @getTLSFlagsWithPrefix exampleFilepath exampleTLSFiles
    "ingester.client" "ingester.client" false
  ##ₘ @getTLSFlagsWithPrefix exampleFilepath exampleTLSFiles
        "querier.frontend-client" "query-frontend" true.
Proof.
  apply getTLSFlagsWithPrefix_prefixes_disjoint. discriminate.
Defined.

(** A state with the checkout directory set, and a state without it where
    git prints an empty line. *)
Lemma getMimirProjectDir_result_witness :
  @getMimirProjectDir exampleOS
    (ExampleOS.mk {["MIMIR_CHECKOUT_DIR" := "/repo"]} None ∅ [])
  = ("/repo", ExampleOS.mk {["MIMIR_CHECKOUT_DIR" := "/repo"]} None ∅ [])
  /\ exists out,
       (@gitShowToplevel exampleOS (ExampleOS.mk ∅ (Some "") ∅ [])).1 = inl out
       /\ @TrimSpace exampleOS out = "".
Proof.
  split.
  - etransitivity.
    + apply (proj1 (@getMimirProjectDir_result exampleOS
                      (ExampleOS.mk {["MIMIR_CHECKOUT_DIR" := "/repo"]} None ∅ []))).
      vm_compute. discriminate.
    + vm_compute. reflexivity.
  - apply (proj2 (@getMimirProjectDir_result exampleOS
                    (ExampleOS.mk ∅ (Some "") ∅ []))).
    vm_compute. reflexivity.
Defined.

Lemma exampleOS_write_read path content w1 w2 :
  @WriteFile exampleOS path content w1 = (None, w2) ->
  @ReadFile exampleOS path w2 = inl content.
Proof.
  cbn. intros Hw. injection Hw as <-. cbn. now rewrite lookup_insert_eq.
Qed.

Lemma copyFileToSharedDir_content_witness :
  exists content,
    @ReadFile exampleOS "/repo/docs/a.txt"
      (ExampleOS.mk {["MIMIR_CHECKOUT_DIR" := "/repo"]} None
         {["/repo/docs/a.txt" := "hello"]} [])
    = inl content
    /\ @ReadFile exampleOS "/shared/cfg/a.txt"
         (@copyFileToSharedDir exampleFilepath exampleOS "/shared" "docs/a.txt"
            "cfg/a.txt"
            (ExampleOS.mk {["MIMIR_CHECKOUT_DIR" := "/repo"]} None
               {["/repo/docs/a.txt" := "hello"]} [])).2
       = inl content.
Proof.
  destruct (@copyFileToSharedDir_content exampleFilepath exampleOS "/shared"
              "docs/a.txt" "cfg/a.txt"
              (ExampleOS.mk {["MIMIR_CHECKOUT_DIR" := "/repo"]} None
                 {["/repo/docs/a.txt" := "hello"]} [])
              (@copyFileToSharedDir exampleFilepath exampleOS "/shared" "docs/a.txt"
                 "cfg/a.txt"
                 (ExampleOS.mk {["MIMIR_CHECKOUT_DIR" := "/repo"]} None
                    {["/repo/docs/a.txt" := "hello"]} [])).2)
    as (content & Hsrc & Hdst).
  - exact exampleOS_write_read.
  - vm_compute. reflexivity.
  - exists content. split; [exact Hsrc|exact Hdst].
Defined.

(** A source file that is missing, and a destination whose directory is a
    file. *)
Lemma copyFileToSharedDir_failure_witness :
  @copyFileToSharedDir exampleFilepath exampleOS "/shared" "docs/a.txt" "cfg/a.txt"
    (ExampleOS.mk {["MIMIR_CHECKOUT_DIR" := "/repo"]} None ∅ [])
  = (Some "unable to read local file docs/a.txt: no such file or directory",
     ExampleOS.mk {["MIMIR_CHECKOUT_DIR" := "/repo"]} None ∅ [])
  /\ @writeFileToSharedDir exampleFilepath exampleOS "/shared" "cfg/a.txt" "hello"
       (ExampleOS.mk ∅ None {["/shared/cfg/a.txt/.." := "x"]} [])
     = (Some "mkdir: not a directory",
        ExampleOS.mk ∅ None {["/shared/cfg/a.txt/.." := "x"]} []).
Proof.
  split.
  - etransitivity.
    + apply (proj1 (@copyFileToSharedDir_failure exampleFilepath exampleOS "/shared"
                      "docs/a.txt" "cfg/a.txt" ""
                      (ExampleOS.mk {["MIMIR_CHECKOUT_DIR" := "/repo"]} None ∅ []))
               "no such file or directory").
      vm_compute. reflexivity.
    + vm_compute. reflexivity.
  - apply (proj2 (@copyFileToSharedDir_failure exampleFilepath exampleOS "/shared"
                    "" "cfg/a.txt" "hello"
                    (ExampleOS.mk ∅ None {["/shared/cfg/a.txt/.." := "x"]} []))).
    vm_compute. reflexivity.
Defined.

Lemma Do_parse_error_witness :
  @Do exampleQueryLang unit exampleNext tt ("", false)
    (Counters.mk 3 10 4, tt)
  = ((None, Some ("bad_data", "unexpected end of input")), (Counters.mk 4 10 4, tt)).
Proof.
  apply (@Do_parse_error exampleQueryLang unit exampleNext tt ("", false)
           (Counters.mk 3 10 4) tt "unexpected end of input").
  reflexivity.
Defined.

(** One optimized matcher among three, in a request that is aligned. *)
Lemma Do_counts_witness :
  @Do exampleQueryLang unit exampleNext tt ("up ~job env", true)
    (Counters.mk 3 10 4, tt)
  = ((Some "up ~job env", None), (Counters.mk 3 13 5, tt)).
Proof.
  apply (@Do_counts exampleQueryLang unit exampleNext tt ("up ~job env", true)
           (Counters.mk 3 10 4) tt [["up"; "~job"; "env"]]).
  vm_compute. reflexivity.
Defined.

Lemma serveAll_keeps_bound_witness :
  (Counters.regexpMatcherOptimizedCount
     (@serveAll exampleQueryLang unit (Do exampleNext) tt
        [("up ~job", true); ("", false); ("~a ~b", false)] (Counters.mk 0 0 0, tt)).1
   <= Counters.regexpMatcherCount
        (@serveAll exampleQueryLang unit (Do exampleNext) tt
           [("up ~job", true); ("", false); ("~a ~b", false)] (Counters.mk 0 0 0, tt)).1)%nat.
Proof.
  apply (@serveAll_keeps_bound exampleQueryLang unit exampleNext).
  - intros ctx req st Hst. exact Hst.
  - cbn. lia.
Defined.

Lemma serveAll_grows_witness :
  countersLe (Counters.mk 2 7 3)
    (@serveAll exampleQueryLang unit (Do exampleNext) tt
       [("up ~job", true); ("", false); ("~a ~b", false)] (Counters.mk 2 7 3, tt)).1.
Proof.
  apply (@serveAll_grows exampleQueryLang unit exampleNext tt
           [("up ~job", true); ("", false); ("~a ~b", false)] (Counters.mk 2 7 3, tt)).
  intros ctx req st. unfold countersLe. cbn. lia.
Defined.

(** Three requests: the second does not parse, the second and the third are
    not aligned. *)
Lemma serveAll_totals_witness :
  (@serveAll exampleQueryLang unit (Do exampleNext) tt
     [("up ~job", true); ("", false); ("~a ~b", false)] (Counters.mk 2 7 3, tt)).1
  = Counters.mk 4 11 6.
Proof.
  etransitivity.
  - apply (@serveAll_totals exampleQueryLang unit exampleNext tt
             [("up ~job", true); ("", false); ("~a ~b", false)] (Counters.mk 2 7 3, tt)).
    intros ctx req st. reflexivity.
  - vm_compute. reflexivity.
Defined.

(** ** Selector: coverage *)

(** The five indices from a multiple of 5 on select the cycle. *)
Lemma generateAlternatingSeries_block (m : nat) :
  generateAlternatingSeries <$> seqZ (5 * Z.of_nat m) 5 = Some <$> seriesCycle.
Proof.
  assert (Hj : forall j : Z, 0 <= j < 5 ->
             generateAlternatingSeries (j + 5 * Z.of_nat m)
             = seriesCycle !! Z.to_nat j).
  { intros j Hj.
    replace (j + 5 * Z.of_nat m) with (Z.of_nat (Z.to_nat j + m * 5)) by lia.
    rewrite generateAlternatingSeries_nat, Nat.Div0.mod_add.
    rewrite Nat.mod_small by lia. reflexivity. }
  unfold seqZ. change (Z.to_nat 5) with 5%nat.
  cbn [seq fmap list_fmap]. change (Z.of_nat 0) with 0. change (Z.of_nat 1) with 1.
  change (Z.of_nat 2) with 2. change (Z.of_nat 3) with 3. change (Z.of_nat 4) with 4.
  rewrite (Hj 0), (Hj 1), (Hj 2), (Hj 3), (Hj 4) by lia.
  reflexivity.
Qed.

Lemma length_filter_fmap {A B : Type} (f : A -> B) (P : B -> Prop)
    `{forall y, Decision (P y)} (l : list A) :
  length (filter (fun x => P (f x)) l) = length (filter P (f <$> l)).
Proof.
  induction l as [|x l IH]; [reflexivity|].
  rewrite fmap_cons, !filter_cons. destruct (decide (P (f x))); cbn; now rewrite IH.
Qed.

(** X18. Among the indices [0 .. 5m-1] every one of the five generators is
    selected exactly [m] times: a fixture built from a multiple of five
    indices holds the five kinds of series in equal numbers. *)
Theorem generateAlternatingSeries_coverage (m : nat) (f : SeriesFuncRef) :
  length (filter (fun i => generateAlternatingSeries i = Some f)
            (seqZ 0 (5 * Z.of_nat m))) = m.
Proof.
  induction m as [|m IH]; [reflexivity|].
  replace (5 * Z.of_nat (S m)) with (5 * Z.of_nat m + 5) by lia.
  rewrite seqZ_app, filter_app, length_app, IH by lia.
  rewrite Z.add_0_l.
  pose proof (length_filter_fmap generateAlternatingSeries (fun o => o = Some f)
                (seqZ (5 * Z.of_nat m) 5)) as Hblock.
  rewrite generateAlternatingSeries_block in Hblock.
  cbv beta in Hblock. rewrite Hblock.
  assert (Hone : length (filter (fun o => o = Some f) (Some <$> seriesCycle)) = 1%nat)
    by (destruct f; reflexivity).
  rewrite Hone. lia.
Qed.
